(** * Point-of-sale orders, loan ledger and report aggregation
    (src/unnamed/part_000, the [App] component).

    Monetary values and counters are JS numbers in the source.  The
    settlement and ledger part models them as [Z]; the export part
    (grand totals) is generic in the number type and its addition, so
    that its equalities hold for IEEE doubles as well. *)

From Stdlib Require Import ZArith String Sorted.
From stdpp Require Import base gmap strings list.

Open Scope Z_scope.

(** ** Data model (type declarations at the top of the file) *)

Inductive Status := Pending | Paid | Loan.

#[global] Instance Status_eq_dec : EqDecision Status.
Proof. solve_decision. Defined.

Record OrderItem := { itemId : string; qty : Z }.

(** [Order]; [id] is renamed [oid] (Rocq's [id] is the identity). *)
Record Order := {
  oid : string;
  waiterId : string;
  time : string;
  items : list OrderItem;
  status : Status;
  collector : string
}.

Record Item := { item_id : string; item_name : string; price : Z }.

Record User := { user_id : string; user_name : string }.

Record LoanEntry := {
  entry_id : string;
  orderId : string;
  amount : Z;
  date : string;
  servedBy : string
}.

Record LoanCustomer := {
  lc_id : string;
  dbId : option string;
  lc_name : string;
  lc_phone : string;
  loans : gmap string LoanEntry
}.

(** ** The realtime store: the [rms/orders] and [rms/loanCustomers] paths *)

(** A node under [rms/orders/<key>] as written by [handleCreateOrder]
    ([id], [waiter_id], [time], [status], [collector], [items]) or by a
    merge [update]; an absent field is [None]. *)
Record OrderNode := {
  n_id : option string;
  n_waiterId : option string;
  n_time : option string;
  n_status : option Status;
  n_collector : option string;
  n_items : list OrderItem
}.

(** A node under [rms/loanCustomers/<dbId>]. *)
Record CustNode := {
  c_id : option string;
  c_name : string;
  c_phone : string;
  c_loans : gmap string LoanEntry
}.

Record Store := {
  orders_db : gmap string OrderNode;
  customers_db : gmap string CustNode
}.

Definition with_orders (s : Store) (m : gmap string OrderNode) : Store :=
  {| orders_db := m; customers_db := customers_db s |}.

Definition with_customers (s : Store) (m : gmap string CustNode) : Store :=
  {| orders_db := orders_db s; customers_db := m |}.

(** The [onValue(dbPath('orders'))] snapshot mapping: [id: order.id ?? id],
    [status: order.status ?? 'pending'], [collector: order.collector ?? ''].
    An undefined [waiterId] or [time] is rendered as the empty string. *)
Definition load_order (key : string) (n : OrderNode) : Order := {|
  oid := default key (n_id n);
  waiterId := default "" (n_waiterId n);
  time := default "" (n_time n);
  items := n_items n;
  status := default Pending (n_status n);
  collector := default "" (n_collector n)
|}.

(** The [onValue(dbPath('loanCustomers'))] snapshot mapping. *)
Definition load_customer (key : string) (n : CustNode) : LoanCustomer := {|
  lc_id := default key (c_id n);
  dbId := Some key;
  lc_name := c_name n;
  lc_phone := c_phone n;
  loans := c_loans n
|}.

(** All loan entries of the ledger, across all customers. *)
Definition all_entries (s : Store) : list LoanEntry :=
  concat (map (fun kc => map snd (map_to_list (c_loans kc.2)))
              (map_to_list (customers_db s))).

(** Outcome of a store write: the backend either accepts it or rejects it
    ([StoreWriteFailure]); the caller's [then]/[catch] branch follows. *)
Inductive Banner := BSuccess (msg : string) | BError (msg : string).

(** ** Derived values of the component *)

Section Component.

(** [itemsById], [usersById] and [currentUser] of the component. *)
Variable itemsById : gmap string Item.
Variable usersById : gmap string User.
Variable currentUser : option User.

(** [orderTotal]: [reduce((sum, entry) => sum + entry.qty *
    (itemsById[entry.itemId]?.price ?? 0), 0)]. *)
Definition orderTotal (o : Order) : Z :=
  fold_left (fun sum e => sum + qty e * default 0 (price <$> itemsById !! itemId e))
            (items o) 0.

(** [usersById[order.waiterId]?.name ?? order.waiterId]. *)
Definition servedByOf (o : Order) : string :=
  default (waiterId o) (user_name <$> usersById !! waiterId o).

(** [updateOrderStatus(id, status)]: [update(dbPath(`orders/${id}`),
    { status, collector })], a merge of two fields at the path
    [orders/<id>] (created if absent).  [ok] is the store's answer. *)
Definition collectorFor (st : Status) : string :=
  match st with
  | Paid | Loan => default "Unknown" (user_name <$> currentUser)
  | Pending => ""
  end.

Definition merge_status (st : Status) (col : string) (n : option OrderNode) : OrderNode :=
  match n with
  | Some n => {| n_id := n_id n; n_waiterId := n_waiterId n; n_time := n_time n;
                 n_status := Some st; n_collector := Some col; n_items := n_items n |}
  | None => {| n_id := None; n_waiterId := None; n_time := None;
               n_status := Some st; n_collector := Some col; n_items := [] |}
  end.

Definition updateOrderStatus (id : string) (st : Status) (ok : bool) (s : Store)
  : Store * Banner :=
  if ok then
    (with_orders s (<[id := merge_status st (collectorFor st) (orders_db s !! id)]> (orders_db s)),
     BSuccess "Order status updated.")
  else (s, BError "write failed").

(** [handleStatusChange(order, status)] for [status <> 'loan']; the
    [loan] case only opens the customer picker (no write). *)
Definition handleStatusChange (o : Order) (st : Status) (ok : bool) (s : Store)
  : option (Store * Banner) :=
  match st with
  | Loan => None
  | _ => Some (updateOrderStatus (oid o) st ok s)
  end.

(** [set(ref, value)] at [loanCustomers/<pathId>/loans/<k>]; an absent
    customer node is created with only its [loans] child. *)
Definition set_loan (pathId k : string) (e : LoanEntry) (m : gmap string CustNode)
  : gmap string CustNode :=
  match m !! pathId with
  | Some c => <[pathId := {| c_id := c_id c; c_name := c_name c; c_phone := c_phone c;
                            c_loans := <[k := e]> (c_loans c) |}]> m
  | None => <[pathId := {| c_id := None; c_name := ""; c_phone := "";
                          c_loans := {[k := e]} |}]> m
  end.

Inductive PromiseResult := Resolved | Rejected.

(** [addLoanEntryForOrder(order, customer)]: the duplicate check looks
    at [customer.loans] only; [k] is the key of [push(...)], [ok] the
    store's answer to the [set]. *)
Definition addLoanEntryForOrder (o : Order) (c : LoanCustomer) (k : string) (ok : bool)
  (s : Store) : Store * PromiseResult :=
  let pathId := default (lc_id c) (dbId c) in
  if existsb (fun l => bool_decide (orderId l = oid o)) (map snd (map_to_list (loans c)))
  then (s, Resolved)
  else
    let e := {| entry_id := k; orderId := oid o; amount := orderTotal o;
                date := time o; servedBy := servedByOf o |} in
    if ok then (with_customers s (set_loan pathId k e (customers_db s)), Resolved)
    else (s, Rejected).

(** [addLoanEntry()]: the manual "add loan entry" form; [now] is
    [Date.now()] and [ok] the store's answer to the [update].  The
    [update] merges all five fields of the entry at the entry path, which
    amounts to setting it. *)
Definition addLoanEntry (orders : list Order) (loanCustomers : list LoanCustomer)
  (loanEntryCustomerId loanEntryOrderId now : string) (ok : bool) (s : Store)
  : Store * Banner :=
  if bool_decide (loanEntryCustomerId = "") || bool_decide (loanEntryOrderId = "")
  then (s, BError "Select customer and loan order.")
  else
    match find (fun c => bool_decide (lc_id c = loanEntryCustomerId)) loanCustomers,
          find (fun o => bool_decide (oid o = loanEntryOrderId)) orders with
    | Some c, Some o =>
        let entryId := ("loan-" ++ now)%string in
        let e := {| entry_id := entryId; orderId := oid o; amount := orderTotal o;
                    date := time o; servedBy := servedByOf o |} in
        let pathId := default (lc_id c) (dbId c) in
        if ok then (with_customers s (set_loan pathId entryId e (customers_db s)),
                    BSuccess "Loan entry added.")
        else (s, BError "write failed")
    | _, _ => (s, BError "Invalid selection.")
    end.

(** [confirmLoanStatus()]: the two writes are issued one after the other,
    each with its own outcome ([ok1] for the status merge, [ok2] for the
    ledger [set]); the ledger write does not wait for the status write. *)
Definition confirmLoanStatus (orders : list Order) (loanCustomers : list LoanCustomer)
  (loanStatusOrderId loanStatusCustomerId k : string) (ok1 ok2 : bool) (s : Store)
  : Store :=
  if bool_decide (loanStatusOrderId = "") || bool_decide (loanStatusCustomerId = "")
  then s
  else
    match find (fun o => bool_decide (oid o = loanStatusOrderId)) orders,
          find (fun c => bool_decide (lc_id c = loanStatusCustomerId)) loanCustomers with
    | Some o, Some c =>
        let s1 := fst (updateOrderStatus (oid o) Loan ok1 s) in
        fst (addLoanEntryForOrder o c k ok2 s1)
    | _, _ => s
    end.

End Component.

(** The entry stored at [loanCustomers/<x>/loans/<k>]. *)
Definition entry_at (s : Store) (x k : string) : option LoanEntry :=
  customers_db s !! x ≫= fun n => c_loans n !! k.

(** ** A small concrete store

    One order, one waiter, one item and two loan customers X and Y. *)
Module Sample.

Definition waiter : User := {| user_id := "w1"; user_name := "Amina" |}.
Definition actor : User := {| user_id := "c1"; user_name := "Hodan" |}.
Definition users : gmap string User := {[ "w1" := waiter; "c1" := actor ]}.
Definition tea : Item := {| item_id := "i1"; item_name := "Tea"; price := 5 |}.
Definition itemsById : gmap string Item := {[ "i1" := tea ]}.

Definition node1 : OrderNode := {|
  n_id := Some "order001"; n_waiterId := Some "w1";
  n_time := Some "2024-01-05T10:00:00.000Z"; n_status := Some Pending;
  n_collector := Some ""; n_items := [ {| itemId := "i1"; qty := 2 |} ] |}.

Definition entryX : LoanEntry := {|
  entry_id := "-Lx"; orderId := "order001"; amount := 10;
  date := "2024-01-05T10:00:00.000Z"; servedBy := "Amina" |}.

Definition custX (l : gmap string LoanEntry) : CustNode :=
  {| c_id := Some "X"; c_name := "Xasan"; c_phone := "+2529001"; c_loans := l |}.
Definition custY (l : gmap string LoanEntry) : CustNode :=
  {| c_id := Some "Y"; c_name := "Yurub"; c_phone := "+2529002"; c_loans := l |}.

(** The order stored under its business id; X already holds its loan. *)
Definition store0 : Store := {|
  orders_db := {[ "order001" := node1 ]};
  customers_db := {[ "-Cx" := custX {[ "-Lx" := entryX ]}; "-Cy" := custY ∅ ]} |}.

(** The same order, no loans recorded yet. *)
Definition store_fresh : Store := {|
  orders_db := {[ "order001" := node1 ]};
  customers_db := {[ "-Cx" := custX ∅; "-Cy" := custY ∅ ]} |}.

(** The order as [handleCreateOrder] stores it: under the key returned by
    [push(dbPath('orders'))], here ["-Nx1"], with [id: 'order001']. *)
Definition store_pushed : Store := {|
  orders_db := {[ "-Nx1" := node1 ]};
  customers_db := {[ "-Cx" := custX ∅ ]} |}.

Definition order1 : Order := load_order "order001" node1.
Definition cX : LoanCustomer := load_customer "-Cx" (custX ∅).
Definition cY : LoanCustomer := load_customer "-Cy" (custY ∅).

Definition orders (s : Store) : list Order :=
  map (fun kn => load_order kn.1 kn.2) (map_to_list (orders_db s)).
Definition customers (s : Store) : list LoanCustomer :=
  map (fun kc => load_customer kc.1 kc.2) (map_to_list (customers_db s)).

End Sample.

(** ** ECMAScript [Date] arithmetic and number formatting

    A time value is a [Z] number of milliseconds (ECMA-262 §21.4.1).
    The model computes in unbounded integers: the [TimeClip] range
    check (±8.64e15 ms) is not modelled. *)
Module JsDate.

Definition msPerDay : Z := 86400000.

(** [Day(t)]. *)
Definition Day (t : Z) : Z := t / msPerDay.

(** [DayFromYear(y)]. *)
Definition DayFromYear (y : Z) : Z :=
  365 * (y - 1970) + (y - 1969) / 4 - (y - 1901) / 100 + (y - 1601) / 400.

(** [YearFromTime], on a day number: the largest [y] with
    [DayFromYear(y) <= d].  The estimate is off by at most one year. *)
Definition year_estimate (d : Z) : Z := 1970 + (400 * d) / 146097.

Definition YearFromDay (d : Z) : Z :=
  let e := year_estimate d in
  if DayFromYear (e + 1) <=? d then e + 1
  else if DayFromYear e <=? d then e else e - 1.

Definition InLeapYear (y : Z) : bool :=
  ((y mod 4 =? 0)%Z && negb (y mod 100 =? 0)%Z) || (y mod 400 =? 0)%Z.

(** Day of the year on which month [m] (0-based) starts. *)
Definition month_start (leap : bool) (m : Z) : Z :=
  let l := if leap then 1 else 0 in
  match m with
  | 0 => 0 | 1 => 31 | 2 => 59 + l | 3 => 90 + l | 4 => 120 + l | 5 => 151 + l
  | 6 => 181 + l | 7 => 212 + l | 8 => 243 + l | 9 => 273 + l | 10 => 304 + l
  | _ => 334 + l
  end.

(** [MakeDay(year, month, date)] (the month overflow carries into the year). *)
Definition MakeDay (y m dt : Z) : Z :=
  let ym := y + m / 12 in
  let mn := m mod 12 in
  DayFromYear ym + month_start (InLeapYear ym) mn + dt - 1.

(** [MakeFullYear] of [Date.UTC]: a year in 0..99 means 1900..1999. *)
Definition MakeFullYear (y : Z) : Z := if (0 <=? y) && (y <=? 99) then 1900 + y else y.

(** [Date.UTC(y, m, d)], as a day number (the time of day is zero). *)
Definition Date_UTC (y m dt : Z) : Z := MakeDay (MakeFullYear y) m dt.

(** [WeekDay(t)] on a day number: 0 is Sunday; day 0 was a Thursday. *)
Definition WeekDay (d : Z) : Z := (d + 4) mod 7.

(** The calendar fields of a day number: year, month (0-based), date. *)
Definition MonthDate (d : Z) : Z * Z * Z :=
  let y := YearFromDay d in
  let doy := d - DayFromYear y in
  let leap := InLeapYear y in
  let m := if doy <? month_start leap 1 then 0 else if doy <? month_start leap 2 then 1
           else if doy <? month_start leap 3 then 2 else if doy <? month_start leap 4 then 3
           else if doy <? month_start leap 5 then 4 else if doy <? month_start leap 6 then 5
           else if doy <? month_start leap 7 then 6 else if doy <? month_start leap 8 then 7
           else if doy <? month_start leap 9 then 8 else if doy <? month_start leap 10 then 9
           else if doy <? month_start leap 11 then 10 else 11 in
  (y, m, doy - month_start leap m + 1).

(** The decimal digit [n] (0..9) as a character. *)
Definition digit (n : Z) : Ascii.ascii := Ascii.ascii_of_nat (48 + Z.to_nat n).

(** Decimal representation of a non-negative integer ([String(n)]); the
    fuel is the bit size of [n], at least its number of decimal digits. *)
Fixpoint dec_aux (fuel : nat) (n : Z) : string :=
  match fuel with
  | O => String (digit n) EmptyString
  | S f => if n <? 10 then String (digit n) EmptyString
           else (dec_aux f (n / 10) ++ String (digit (n mod 10)) EmptyString)%string
  end.

Definition dec_nat (n : Z) : string := dec_aux (Pos.size_nat (Z.to_pos n)) n.

(** [String(n)] / template interpolation of an integer. *)
Definition dec (n : Z) : string :=
  if n <? 0 then ("-" ++ dec_nat (- n))%string else dec_nat n.

(** [s.padStart(w, '0')]. *)
Definition padStart0 (w : nat) (s : string) : string :=
  (String.concat "" (repeat "0" (w - String.length s)%nat) ++ s)%string.

(** Fixed-width zero-padded decimal, [w] digits (the low [w] digits). *)
Fixpoint pad (w : nat) (n : Z) : string :=
  match w with
  | O => EmptyString
  | S w' => (pad w' (n / 10) ++ String (digit (n mod 10)) EmptyString)%string
  end.

(** The date part of [toISOString()]: a year in 0..9999 as four digits,
    otherwise a sign and six digits. *)
Definition iso_year (y : Z) : string :=
  if ((0 <=? y) && (y <=? 9999))%Z then pad 4 y
  else ((if (y <? 0)%Z then "-" else "+") ++ pad 6 (Z.abs y))%string.

(** [toISOString()] from the UTC fields. *)
Definition iso_of_fields (y m dt h mi s ms : Z) : string :=
  (iso_year y ++ "-" ++ pad 2 (m + 1) ++ "-" ++ pad 2 dt ++ "T" ++ pad 2 h ++ ":" ++
   pad 2 mi ++ ":" ++ pad 2 s ++ "." ++ pad 3 ms ++ "Z")%string.

Definition toISOString (t : Z) : string :=
  let '(y, m, dt) := MonthDate (Day t) in
  let r := t mod msPerDay in
  iso_of_fields y m dt (r / 3600000) ((r / 60000) mod 60) ((r / 1000) mod 60) (r mod 1000).

End JsDate.

(** ** Report aggregator: [getWeekId] and [reportRows] *)
Module Report.
Import JsDate.

(** [getWeekId(d)], on the local calendar date of [d]
    ([d.getFullYear()], [d.getMonth()], [d.getDate()]).
    [date.setUTCDate(date.getUTCDate() + 4 - dayNum)] moves the date by
    [4 - dayNum] days ([MakeDay] carries a day-of-month overflow). *)
Definition getWeekId_fields (y m dt : Z) : Z * Z :=
  let date := Date_UTC y m dt in
  let dayNum := match WeekDay date with 0 => 7 | n => n end in
  let date' := date + 4 - dayNum in
  let yearStart := Date_UTC (YearFromDay date') 0 1 in
  (* [Math.ceil(((date - yearStart) / 86400000 + 1) / 7)] on whole days *)
  let weekNo := ((date' - yearStart + 1) + 6) / 7 in
  (YearFromDay date', weekNo).

Definition week_label (yw : Z * Z) : string :=
  (dec yw.1 ++ "-W" ++ dec yw.2)%string.

Definition getWeekId (y m dt : Z) : string := week_label (getWeekId_fields y m dt).

(** Modelled from the spec: the ISO-8601 week of a calendar day [D]
    (weeks start on Monday, week 1 of year [Y] contains [Y]'s first
    Thursday): [D] lies in year [Y]'s weeks and is in week [n]. *)
Definition iso_dow (D : Z) : Z := (D + 3) mod 7 + 1.

Definition first_thursday (Y : Z) : Z :=
  let j := DayFromYear Y in j + (4 - iso_dow j) mod 7.

Definition week1_monday (Y : Z) : Z := first_thursday Y - 3.

Definition iso_week (D Y n : Z) : Prop :=
  week1_monday Y <= D < week1_monday (Y + 1) /\ n = (D - week1_monday Y) / 7 + 1.

(** The calendar day (day number) of the date [y]-[m+1]-[dt]. *)
Definition calendar_day (y m dt : Z) : Z := MakeDay y m dt.

Inductive Tab := Daily | Weekly | Monthly | Yearly.
Inductive StatusFilter := FAll | FPaid | FLoan.

(** A report row; the number type [N] is left open (JS numbers). *)
Record ReportRow (N : Type) := {
  label : string;
  ordersCount : N; itemsCount : N; sales : N; paid : N; loan : N; pending : N
}.
Arguments label {N}. Arguments ordersCount {N}. Arguments itemsCount {N}.
Arguments sales {N}. Arguments paid {N}. Arguments loan {N}. Arguments pending {N}.

Record ReportStats := {
  s_ordersCount : Z; s_itemsCount : Z; s_sales : Z; s_paid : Z; s_loan : Z; s_pending : Z
}.

Definition zeroStats : ReportStats := Build_ReportStats 0 0 0 0 0 0.

(** [Map] with insertion order: [get] and [set] (an existing key keeps its
    position, a new key is appended). *)
Fixpoint map_get (k : string) (m : list (string * ReportStats)) : option ReportStats :=
  match m with
  | [] => None
  | (k', v) :: m' => if bool_decide (k = k') then Some v else map_get k m'
  end.

Fixpoint map_set (k : string) (v : ReportStats) (m : list (string * ReportStats))
  : list (string * ReportStats) :=
  match m with
  | [] => [(k, v)]
  | (k', v') :: m' => if bool_decide (k = k') then (k, v) :: m' else (k', v') :: map_set k v m'
  end.

(** JS string [a > b]: code-unit lexicographic comparison. *)
Definition str_gt (a b : string) : bool :=
  match String.compare a b with Gt => true | _ => false end.

(** [Array.prototype.sort] with the comparator [([a], [b]) => (a > b ? -1 : 1)],
    as an insertion sort: an element goes before the first element it
    compares below ([-1]). *)
Definition cmp_label (a b : string * ReportStats) : Z := if str_gt a.1 b.1 then -1 else 1.

Fixpoint insert_by (x : string * ReportStats) (l : list (string * ReportStats))
  : list (string * ReportStats) :=
  match l with
  | [] => [x]
  | y :: l' => if cmp_label x y <? 0 then x :: y :: l' else y :: insert_by x l'
  end.

Definition sort_by (l : list (string * ReportStats)) : list (string * ReportStats) :=
  fold_right insert_by [] l.

Section Aggregate.

Variable itemsById : gmap string Item.
(** [new Date(s).getTime()]: [None] is [NaN]. *)
Variable parseTime : string -> option Z.
(** Offset of local time from UTC, in ms (a fixed zone). *)
Variable tzOffset : Z.

Definition LocalTime (t : Z) : Z := t + tzOffset.

(** [end.setHours(23, 59, 59, 999)]: the same local day, at the given time. *)
Definition setHours (h mi s ms t : Z) : Z :=
  Day (LocalTime t) * msPerDay + (h * 3600000 + mi * 60000 + s * 1000 + ms) - tzOffset.

(** The [orders.filter(...)] predicate; [start] and [end_] are the
    parsed range bounds ([null] when the field is empty). *)
Definition reportFilter (start end_ : option Z) (reportStatus : StatusFilter) (o : Order) : bool :=
  let endB := (fun e => setHours 23 59 59 999 e) <$> end_ in
  match parseTime (time o) with
  | None => false
  | Some t =>
      if (match start with Some s => t <? s | None => false end) then false
      else if (match endB with Some e => e <? t | None => false end) then false
      else if (match reportStatus with FPaid => negb (bool_decide (status o = Paid)) | _ => false end)
      then false
      else if (match reportStatus with FLoan => negb (bool_decide (status o = Loan)) | _ => false end)
      then false
      else true
  end.

(** The bucket keys: [date.toISOString().slice(0, 10)],
    [`${date.getFullYear()}-${String(date.getMonth() + 1).padStart(2, '0')}`]
    and [`${date.getFullYear()}`]. *)
Definition daily_label (t : Z) : string := String.substring 0 10 (toISOString t).
Definition monthly_label (y m : Z) : string := (dec y ++ "-" ++ padStart0 2 (dec (m + 1)))%string.
Definition yearly_label (y : Z) : string := dec y.

(** The bucket key of an order time [t]. *)
Definition bucketKey (tab : Tab) (t : Z) : string :=
  let '(ly, lm, ld) := MonthDate (Day (LocalTime t)) in
  match tab with
  | Daily => daily_label t
  | Weekly => getWeekId ly lm ld
  | Monthly => monthly_label ly lm
  | Yearly => yearly_label ly
  end.

Definition accumulate (o : Order) (cur : ReportStats) : ReportStats := {|
  s_ordersCount := s_ordersCount cur + 1;
  s_itemsCount := s_itemsCount cur + fold_left (fun s i => s + qty i) (items o) 0;
  s_sales := s_sales cur + fold_left (fun s i => s + qty i * default 0 (price <$> itemsById !! itemId i))
                                     (items o) 0;
  s_paid := s_paid cur + (if bool_decide (status o = Paid) then 1 else 0);
  s_loan := s_loan cur + (if bool_decide (status o = Loan) then 1 else 0);
  s_pending := s_pending cur + (if bool_decide (status o = Paid) || bool_decide (status o = Loan)
                                then 0 else 1)
|}.

Definition bucket_step (tab : Tab) (m : list (string * ReportStats)) (o : Order)
  : list (string * ReportStats) :=
  match parseTime (time o) with
  | None => m
  | Some t =>
      let key := bucketKey tab t in
      map_set key (accumulate o (default zeroStats (map_get key m))) m
  end.

Definition toRow (kv : string * ReportStats) : ReportRow Z := {|
  label := kv.1; ordersCount := s_ordersCount kv.2; itemsCount := s_itemsCount kv.2;
  sales := s_sales kv.2; paid := s_paid kv.2; loan := s_loan kv.2; pending := s_pending kv.2 |}.

Definition reportRows (orders : list Order) (tab : Tab) (start end_ : option Z)
  (reportStatus : StatusFilter) : list (ReportRow Z) :=
  let filtered := filter (reportFilter start end_ reportStatus) orders in
  map toRow (sort_by (fold_left (bucket_step tab) filtered [])).

End Aggregate.

(** The range and status conditions of the report, as the spec words
    them: the last millisecond (23:59:59.999) of the local day of [e],
    and the status admitted by a filter. *)
Definition end_of_local_day (tzOffset e : Z) : Z :=
  let local := e + tzOffset in
  local - local mod msPerDay + (23 * 3600000 + 59 * 60000 + 59 * 1000 + 999) - tzOffset.

(** Descending string order of consecutive labels: [a] is not below [b]. *)
Definition label_desc (a b : string) : Prop := String.compare a b <> Lt.

(** Chronological order of calendar periods: by year, then month, then day. *)
Definition period_compare (y1 m1 d1 y2 m2 d2 : Z) : comparison :=
  match Z.compare y1 y2 with
  | Eq => match Z.compare m1 m2 with Eq => Z.compare d1 d2 | c => c end
  | c => c
  end.

Definition status_ok (f : StatusFilter) (s : Status) : Prop :=
  match f with FAll => True | FPaid => s = Paid | FLoan => s = Loan end.


(** ** Export: [exportReportCSV], [printReport] and the on-screen total row *)
Section CsvExport.

Variable N : Type.
Variable add : N -> N -> N.   (** JS [+] *)
Variable zero : N.
Variable show : N -> string.  (** [ToString] of a number *)
Variable toFixed2 : N -> string.  (** [n.toFixed(2)] *)

Record Totals := {
  t_ordersCount : N; t_itemsCount : N; t_sales : N; t_paid : N; t_loan : N; t_pending : N
}.

(** The accumulator of [exportReportCSV] (and of [printReport]). *)
Definition total_step (acc : Totals) (r : ReportRow N) : Totals := {|
  t_ordersCount := add (t_ordersCount acc) (ordersCount r);
  t_itemsCount := add (t_itemsCount acc) (itemsCount r);
  t_sales := add (t_sales acc) (sales r);
  t_paid := add (t_paid acc) (paid r);
  t_loan := add (t_loan acc) (loan r);
  t_pending := add (t_pending acc) (pending r) |}.

Definition zeroTotals : Totals := Build_Totals zero zero zero zero zero zero.

Definition csvTotal (rows : list (ReportRow N)) : Totals := fold_left total_step rows zeroTotals.
Definition printTotal (rows : list (ReportRow N)) : Totals := fold_left total_step rows zeroTotals.

(** The on-screen total row: six separate [reportRows.reduce((s, r) => s + r.f, 0)]. *)
Definition screen_sum (f : ReportRow N -> N) (rows : list (ReportRow N)) : N :=
  fold_left (fun s r => add s (f r)) rows zero.

Definition screenTotal (rows : list (ReportRow N)) : Totals := {|
  t_ordersCount := screen_sum ordersCount rows; t_itemsCount := screen_sum itemsCount rows;
  t_sales := screen_sum sales rows; t_paid := screen_sum paid rows;
  t_loan := screen_sum loan rows; t_pending := screen_sum pending rows |}.

Definition csv_line (cells : list string) : string := String.concat "," cells.

Definition row_cells (r : ReportRow N) : list string :=
  [label r; show (ordersCount r); show (itemsCount r); toFixed2 (sales r);
   show (paid r); show (loan r); show (pending r)].

Definition total_cells (t : Totals) : list string :=
  ["Total"; show (t_ordersCount t); show (t_itemsCount t); toFixed2 (t_sales t);
   show (t_paid t); show (t_loan t); show (t_pending t)].

Definition csv_header : list string := ["Period"; "Orders"; "Items"; "Sales"; "Paid"; "Loan"; "Pending"].

(** The CSV text of [exportReportCSV] ([rows.map(r => r.join(',')).join('\n')]). *)
Definition exportReportCSV (rows : list (ReportRow N)) : string :=
  String.concat (String (Ascii.ascii_of_nat 10) EmptyString)
    (map csv_line ([csv_header] ++ map row_cells rows ++ [total_cells (csvTotal rows)])).

End CsvExport.
End Report.

(** ** Order id allocation: [nextOrderId] *)
Module OrderIds.
Import JsDate.

Definition is_digit (c : Ascii.ascii) : bool :=
  (48 <=? Ascii.nat_of_ascii c)%nat && (Ascii.nat_of_ascii c <=? 57)%nat.

(** The exact (mathematical) value of a string of ASCII digits. *)
Fixpoint digits_value (s : string) (acc : Z) : option Z :=
  match s with
  | EmptyString => Some acc
  | String c s' =>
      if is_digit c then digits_value s' (acc * 10 + (Z.of_nat (Ascii.nat_of_ascii c) - 48))
      else None
  end.

(** [/^order(\d+)$/.exec(s)]: the exact value of the digits [match[1]]. *)
Definition match_order (s : string) : option Z :=
  if String.prefix "order" s then
    match String.substring 5 (String.length s - 5) s with
    | EmptyString => None
    | rest => digits_value rest 0
    end
  else None.

(** The JS numbers of [nextOrderId]: starting from [0], [Number] of a
    digit string, [Math.max] and [+ 1] only ever give a non-negative
    integer-valued double or [Infinity] ([Number] of a digit string is
    never [NaN], so the [Number.isNaN] test never fires). *)
Inductive JsNum := JFin (v : Z) | JInf.

(** The double nearest to the integer [n >= 0]: round to nearest, ties to
    even, to a 53-bit significand; [Infinity] when the rounded value
    reaches 2^1024. *)
Definition round_double (n : Z) : JsNum :=
  if n <? 2 ^ 53 then JFin n
  else
    let sh := Z.log2 n - 52 in
    let q := n / 2 ^ sh in
    let r := n mod 2 ^ sh in
    let half := 2 ^ (sh - 1) in
    let q' := if (half <? r) || ((r =? half) && Z.odd q) then q + 1 else q in
    let v := q' * 2 ^ sh in
    if 2 ^ 1024 <=? v then JInf else JFin v.

(** [Number(match[1])]: the double nearest to the value of the digits. *)
Definition number_of_digits (n : Z) : JsNum := round_double n.

(** [Math.max(a, b)]. *)
Definition js_max (a b : JsNum) : JsNum :=
  match a, b with
  | JFin x, JFin y => JFin (Z.max x y)
  | _, _ => JInf
  end.

(** [a + m] for an integer [m >= 0]: the exact sum, rounded. *)
Definition js_add (a : JsNum) (m : Z) : JsNum :=
  match a with
  | JFin x => round_double (x + m)
  | JInf => JInf
  end.

(** [c], read back as a double, is [v]. *)
Definition round_trips (v c : Z) : bool :=
  match round_double c with JFin x => x =? v | JInf => false end.

(** The decimal candidates for [v] with the digits below [p] zero: the
    round-tripping one of [v] rounded down and up to a multiple of [p],
    the closer one if both do, the even one on a tie. *)
Definition candidate (v p : Z) : option Z :=
  let lo := v / p * p in
  let hi := lo + p in
  match round_trips v lo, round_trips v hi with
  | true, true =>
      if v - lo <? hi - v then Some lo
      else if hi - v <? v - lo then Some hi
      else if Z.even (lo / p) then Some lo else Some hi
  | true, false => Some lo
  | false, true => Some hi
  | false, false => None
  end.

(** The first candidate for [p] = 10^(n-1), 10^(n-2), ..., 1: the fewest
    significant digits. *)
Fixpoint shortest (v : Z) (ps : list Z) : Z :=
  match ps with
  | [] => v
  | p :: ps' => match candidate v p with Some c => c | None => shortest v ps' end
  end.

Fixpoint drop_zeros (l : list Ascii.ascii) : list Ascii.ascii :=
  match l with
  | c :: l' => if Ascii.eqb c (digit 0) then drop_zeros l' else l
  | [] => []
  end.

(** The significant digits [s] of a decimal numeral (trailing zeros dropped). *)
Definition strip_zeros (d : string) : string :=
  string_of_list_ascii (rev (drop_zeros (rev (list_ascii_of_string d)))).

(** [String(x)] (Number::toString) for the numbers above: the shortest
    round-tripping digits, written out in full below 10^21 and as
    [d.ddde+N] from 10^21 on. *)
Definition Number_toString (x : JsNum) : string :=
  match x with
  | JInf => "Infinity"
  | JFin v =>
      if v =? 0 then "0"
      else
        let w := shortest v (map (fun j => 10 ^ Z.of_nat j) (rev (seq 0 (String.length (dec v))))) in
        let d := dec w in
        if (String.length d <=? 21)%nat then d
        else
          let e := dec (Z.of_nat (String.length d) - 1) in
          match strip_zeros d with
          | String c EmptyString => (String c EmptyString ++ "e+" ++ e)%string
          | String c rest => (String c EmptyString ++ "." ++ rest ++ "e+" ++ e)%string
          | EmptyString => d
          end
  end.

Definition max_step (mx : JsNum) (s : string) : JsNum :=
  match match_order s with None => mx | Some num => js_max mx (number_of_digits num) end.

(** [nextOrderId()], on the ids of the current orders. *)
Definition nextOrderId (ids : list string) : string :=
  let maxExisting := fold_left max_step ids (JFin 0) in
  ("order" ++ padStart0 3 (Number_toString (js_add maxExisting 1)))%string.

End OrderIds.

(** ** String helpers of the component (code units 0..255 of a JS string) *)
Module JsString.
Import OrderIds.

(** The white space removed by [String.prototype.trim] among code units
    0..255: TAB, LF, VT, FF, CR, SPACE and NO-BREAK SPACE. *)
Definition is_ws (c : Ascii.ascii) : bool :=
  let n := Ascii.nat_of_ascii c in
  ((9 <=? n) && (n <=? 13))%nat || (n =? 32)%nat || (n =? 160)%nat.

Fixpoint trim_start (s : string) : string :=
  match s with
  | EmptyString => EmptyString
  | String c s' => if is_ws c then trim_start s' else s
  end.

Fixpoint str_rev_aux (s acc : string) : string :=
  match s with
  | EmptyString => acc
  | String c s' => str_rev_aux s' (String c acc)
  end.

Definition str_rev (s : string) : string := str_rev_aux s EmptyString.

(** [s.trim()]. *)
Definition trim (s : string) : string := str_rev (trim_start (str_rev (trim_start s))).

(** [toLowerCase()] on code units 0..255: A-Z and the Latin-1 capitals
    U+00C0..U+00DE other than U+00D7 move up by 32. *)
Definition lower_char (c : Ascii.ascii) : Ascii.ascii :=
  let n := Ascii.nat_of_ascii c in
  if ((65 <=? n) && (n <=? 90))%nat || ((192 <=? n) && (n <=? 222) && negb (n =? 215))%nat
  then Ascii.ascii_of_nat (n + 32) else c.

Fixpoint toLowerCase (s : string) : string :=
  match s with
  | EmptyString => EmptyString
  | String c s' => String (lower_char c) (toLowerCase s')
  end.

(** [s.includes(t)]. *)
Fixpoint includes (s t : string) : bool :=
  String.prefix t s || match s with EmptyString => false | String _ s' => includes s' t end.

(** [s.startsWith(t)], [s.endsWith(t)] and [s.slice(n)]. *)
Definition startsWith (s t : string) : bool := String.prefix t s.

Definition endsWith (s t : string) : bool :=
  (String.length t <=? String.length s)%nat &&
  String.eqb (String.substring (String.length s - String.length t) (String.length t) s) t.

Definition slice (s : string) (n : nat) : string := String.substring n (String.length s - n) s.

(** [s.replace(/\D/g, '')]: the ASCII digits of [s], in order. *)
Fixpoint keep_digits (s : string) : string :=
  match s with
  | EmptyString => EmptyString
  | String c s' => if is_digit c then String c (keep_digits s') else keep_digits s'
  end.

(** [/^\d{4}$/.test(s)]. *)
Definition four_digits (s : string) : bool :=
  (String.length s =? 4)%nat && String.eqb (keep_digits s) s.

End JsString.

(** ** [Array.prototype.sort] with a comparator

    The sort is stable; for a comparator that is a total preorder every
    stable sort gives the same result, the one of this insertion sort
    (an element goes before the first element it does not compare above).
    A [NaN] comparator result counts as [+0] (SortCompare). *)
Module JsSort.

Section Sort.
Context {A : Type}.
Variable cmp : A -> A -> Z.

Fixpoint insert_cmp (x : A) (l : list A) : list A :=
  match l with
  | [] => [x]
  | y :: l' => if cmp x y <=? 0 then x :: y :: l' else y :: insert_cmp x l'
  end.

Definition sort_cmp (l : list A) : list A := fold_right insert_cmp [] l.

End Sort.
End JsSort.

(** ** Sign-in, session and staff management *)
Module Auth.
Import JsString.

Inductive Role := Admin | Waiter | Collector.

#[global] Instance Role_eq_dec : EqDecision Role.
Proof. solve_decision. Defined.

(** [User] as the component holds it ([users] state); [id] is [u_id]. *)
Record User := {
  u_id : string;
  u_dbId : option string;
  u_name : string;
  u_role : Role;
  u_phone : string;
  u_pin : string
}.

(** [normalizePhone(phone)]. *)
Definition normalizePhone (phone : string) : string :=
  let digits := keep_digits phone in
  if startsWith digits "25290" then slice digits 5
  else if startsWith digits "2520" then slice digits 4
  else if startsWith digits "252" then slice digits 3
  else if startsWith digits "0" then slice digits 1
  else digits.

(** The predicate of [users.find(...)] in [handleLogin], for the trimmed
    [pin] and [phone] and [normalized = normalizePhone(phone)]. *)
Definition login_match (pin phone normalized : string) (u : User) : bool :=
  String.eqb (u_pin u) pin &&
  (let stored := normalizePhone (u_phone u) in
   String.eqb (u_phone u) phone || String.eqb stored normalized ||
   endsWith stored normalized || endsWith normalized stored).

Inductive Screen := Dash | OrdersTab | StaffTab | ItemsTab | ReportsTab | LoansTab.

(** [match.role === 'waiter' || match.role === 'collector' ? 'orders' : 'dash']. *)
Definition landing (r : Role) : Screen :=
  match r with Waiter | Collector => OrdersTab | Admin => Dash end.

(** The object saved under [SESSION_KEY]: [{ userId, expiresAt }]. *)
Record Session := { userId : string; expiresAt : Z }.

(** The outcome of [handleLogin()]: the [authError] message, or the
    signed-in user with the tab shown, the saved session and the new
    [draftWaiter] ([None]: unchanged).  The log entry and the welcome
    banner are not modelled. *)
Inductive LoginResult :=
  | LoginError (msg : string)
  | LoginOk (u : User) (tab : Screen) (saved : Session) (draftWaiter : option string).

(** [handleLogin()]; [now] is [Date.now()]. *)
Definition handleLogin (users : list User) (authPhone authPin : string) (now : Z) : LoginResult :=
  match users with
  | [] => LoginError "Data is still loading. Try again in a moment."
  | _ =>
      let phone := trim authPhone in
      let normalized := normalizePhone phone in
      let pin := trim authPin in
      match find (login_match pin phone normalized) users with
      | None => LoginError "Invalid phone or PIN. Try again."
      | Some m =>
          LoginOk m (landing (u_role m)) {| userId := u_id m; expiresAt := now + 60 * 60 * 1000 |}
                  (if bool_decide (u_role m = Waiter) then Some (u_id m) else None)
      end
  end.

(** What [localStorage.getItem(SESSION_KEY)] holds: nothing (or the
    empty string), the JSON text of a saved session (which
    [JSON.parse] reads back as that session), or a text on which
    [JSON.parse] throws. *)
Inductive Stored := NoSession | Saved (s : Session) | Unparsable.

(** The effect of the session-restoring [useEffect]: nothing, removal of
    the stored session, or sign-in of the found user on its tab (a
    waiter also becomes the draft waiter, a function of the user). *)
Inductive Restore := Keep | Clear | Resume (u : User) (tab : Screen).

Definition restoreSession (currentUser : option User) (users : list User) (raw : Stored)
  (now : Z) : Restore :=
  match currentUser with
  | Some _ => Keep
  | None =>
      match raw, users with
      | NoSession, _ | _, [] => Keep
      | Unparsable, _ => Clear
      | Saved p, _ =>
          if expiresAt p <? now then Clear
          else match find (fun u => String.eqb (u_id u) (userId p)) users with
               | Some f => Resume f (landing (u_role f))
               | None => Keep
               end
      end
  end.

(** The request a staff action sends: the fields of the [update] at
    [users/<pathId>] ([pin] only when given), or the [remove] there; or
    the error banner it shows instead. *)
Record UserUpdate := { up_name : string; up_phone : string; up_role : Role; up_pin : option string }.

Inductive StaffAction :=
  | Refused (msg : string)
  | UpdateAt (path : string) (payload : UserUpdate)
  | RemoveAt (path : string).

Definition is_self (currentUser : option User) (id : string) : bool :=
  match currentUser with Some c => String.eqb (u_id c) id | None => false end.

Definition find_user (users : list User) (id : string) : option User :=
  find (fun u => String.eqb (u_id u) id) users.

Definition is_admin (t : option User) : bool :=
  match t with Some t => bool_decide (u_role t = Admin) | None => false end.

(** [updateWaiterProfile(id, name, phone, role, pin)]; an undefined [pin]
    is [None]. *)
Definition updateWaiterProfile (users : list User) (currentUser : option User)
  (id name phone : string) (role : Role) (pin : option string) : StaffAction :=
  let nextName := trim name in
  let nextPhone := trim phone in
  if String.eqb nextName "" || String.eqb nextPhone "" then Refused "Provide both name and phone."
  else
    let target := find_user users id in
    if is_admin target && negb (is_self currentUser id) then
      Refused "Admins cannot modify another admin."
    else if (match pin with Some p => negb (String.eqb p "") && negb (four_digits (trim p))
                          | None => false end) then
      Refused "PIN must be 4 digits."
    else
      let enforcedRole :=
        if is_admin target || is_self currentUser id
        then default role (u_role <$> target) else role in
      let pathId := default id (target ≫= u_dbId) in
      UpdateAt ("users/" ++ pathId)
        {| up_name := nextName; up_phone := nextPhone; up_role := enforcedRole;
           up_pin := match pin with
                     | Some p => if String.eqb (trim p) "" then None else Some (trim p)
                     | None => None
                     end |}.

(** [deleteWaiter(id)]. *)
Definition deleteWaiter (users : list User) (currentUser : option User) (id : string)
  : StaffAction :=
  let target := find_user users id in
  if is_admin target && negb (is_self currentUser id) then
    Refused "Admins cannot remove another admin."
  else if is_self currentUser id then Refused "Cannot delete the signed-in user."
  else RemoveAt ("users/" ++ default id (target ≫= u_dbId)).

End Auth.

(** ** Translations: [TRANSLATIONS] and [tr] *)
Module I18n.

Inductive Lang := En | So.

Definition TRANSLATIONS_en : list (string * string) := [
  ("dash", "Dash");
  ("orders", "Orders");
  ("staff", "Staff");
  ("items", "Items");
  ("reports", "Reports");
  ("loans", "Loans");
  ("loanBook", "Loan Book");
  ("searchOrders", "Search by Order ID (last 4 digits) or User Name");
  ("searchItems", "Search items");
  ("searchUsers", "Search users by name or phone");
  ("searchLoanCustomers", "Search loan customers");
  ("searchMenu", "Search menu items...");
  ("addUser", "+ Add user");
  ("addItem", "+ Add item");
  ("addLoanCustomer", "+ Add loan customer");
  ("addLoanEntry", "+ Add loan entry");
  ("submitOrder", "Submit Order");
  ("total", "Total");
  ("name", "Name");
  ("phone", "Phone");
  ("price", "Price");
  ("stock", "Stock");
  ("statusActive", "Active");
  ("statusDone", "Done");
  ("statusPending", "Pending");
  ("statusPaid", "Paid");
  ("statusLoan", "Loan");
  ("all", "All");
  ("active", "Active");
  ("paid", "Paid");
  ("loan", "Loan");
  ("done", "Done");
  ("loginTitle", "RestoDash Login");
  ("loginHint", "Access your management panel.");
  ("phoneNumber", "Phone Number");
  ("pinDigits", "PIN (4 digits)");
  ("signIn", "Sign In");
  ("dashboardTitle", "Dashboard");
  ("ordersTitle", "Orders");
  ("itemsTitle", "Items");
  ("staffTitle", "Users");
  ("reportsTitle", "Reports");
  ("loansTitle", "Loan Book");
  ("loanOrders", "Loan Orders");
  ("loanAmount", "Loan Amount");
  ("stockLeft", "Stock left");
  ("updateStock", "Update Stock");
  ("actions", "Actions");
  ("noItems", "No items found.");
  ("noUsers", "No users found.");
  ("noOrders", "No orders found.");
  ("noLoanCustomers", "No loan customers found.");
  ("noLoansYet", "No loans yet.");
  ("servedBy", "Served by");
  ("loanDetails", "Loan details");
  ("selectLoanCustomer", "Select loan customer");
  ("selectOrder", "Select order");
  ("cancel", "Cancel");
  ("delete", "Delete");
  ("edit", "Edit");
  ("view", "View");
  ("addEntry", "Add entry");
  ("addItemTitle", "Add Item");
  ("addUserTitle", "Add User");
  ("newOrderTitle", "New Order")
].

Definition TRANSLATIONS_so : list (string * string) := [
  ("dash", "Degdeg");
  ("orders", "Dalabyo");
  ("staff", "Isticmaaleyaal");
  ("items", "Alaabo");
  ("reports", "Warbixinno");
  ("loans", "Dayn");
  ("loanBook", "Buugga Deynta");
  ("searchOrders", "Raadi dalab (4 lambar dambe) ama magac");
  ("searchItems", "Raadi alaabo");
  ("searchUsers", "Raadi isticmaaleyaal magac ama telefoon");
  ("searchLoanCustomers", "Raadi macaamiisha daynta");
  ("searchMenu", "Raadi alaabta menu...");
  ("addUser", "+ Ku dar isticmaal");
  ("addItem", "+ Ku dar alaab");
  ("addLoanCustomer", "+ Ku dar macmiil deyn");
  ("addLoanEntry", "+ Ku dar deyn");
  ("submitOrder", "Gudbi Dalabka");
  ("total", "Wadar");
  ("name", "Magac");
  ("phone", "Telefoon");
  ("price", "Qiime");
  ("stock", "Kayd");
  ("statusActive", "Firfircoon");
  ("statusDone", "Dhamey");
  ("statusPending", "Sugaya");
  ("statusPaid", "bixiyay");
  ("statusLoan", "Deyn");
  ("all", "Dhammaan");
  ("active", "ku taagan");
  ("paid", "bixiyay");
  ("loan", "Deyn");
  ("done", "dhammaaday");
  ("loginTitle", "RestoDash Gelid");
  ("loginHint", "Gali nidaamka maamulka.");
  ("phoneNumber", "Lambarka Telefoonka");
  ("pinDigits", "PIN (4 lambar)");
  ("signIn", "Gali");
  ("dashboardTitle", "Tusmo Araga");
  ("ordersTitle", "Dalabyo");
  ("itemsTitle", "Alaabo");
  ("staffTitle", "Shaaqalaha");
  ("reportsTitle", "Warbixinno");
  ("loansTitle", "Buugga Deynta");
  ("loanOrders", "Dalabyo Deyn");
  ("loanAmount", "Wadar Deyn");
  ("stockLeft", "int ka hadhay");
  ("updateStock", "Cusbooneysii kayd");
  ("actions", "sixid");
  ("noItems", "Alaab lama helin.");
  ("noUsers", "Isticmaal lama helin.");
  ("noOrders", "Dalab lama helin.");
  ("noLoanCustomers", "Ma jiraan macaamiil deyn.");
  ("noLoansYet", "Weli dayn ma jiro.");
  ("servedBy", "U adeegey");
  ("loanDetails", "Faahfaahinta deynta");
  ("selectLoanCustomer", "Dooro macmiil deyn");
  ("selectOrder", "Dooro dalab");
  ("cancel", "Jooji");
  ("delete", "Tirtir");
  ("edit", "Wax ka beddel");
  ("view", "Fiiri");
  ("addEntry", "Ku dar deyn");
  ("addItemTitle", "Ku dar Alaab");
  ("addUserTitle", "Ku dar Isticmaal");
  ("newOrderTitle", "Dalab Cusub")
].

(** Properties every plain object inherits from [Object.prototype]. *)
Definition object_prototype_names : list string :=
  ["constructor"; "hasOwnProperty"; "isPrototypeOf"; "propertyIsEnumerable";
   "toLocaleString"; "toString"; "valueOf"; "__proto__"; "__defineGetter__";
   "__defineSetter__"; "__lookupGetter__"; "__lookupSetter__"].

(** A value [tr] can return: a string, or an inherited member of
    [Object.prototype] (a function, or the prototype itself). *)
Inductive JsValue := JStr (s : string) | JInherited (name : string).

Definition table (lang : Lang) : list (string * string) :=
  match lang with En => TRANSLATIONS_en | So => TRANSLATIONS_so end.

Fixpoint assoc (k : string) (l : list (string * string)) : option string :=
  match l with
  | [] => None
  | (k', v) :: l' => if String.eqb k k' then Some v else assoc k l'
  end.

(** [tr(lang, key) = TRANSLATIONS[lang]?.[key] ?? key]. *)
Definition tr (lang : Lang) (key : string) : JsValue :=
  match assoc key (table lang) with
  | Some v => JStr v
  | None => if existsb (String.eqb key) object_prototype_names then JInherited key else JStr key
  end.

End I18n.

(** ** The order draft and [handleCreateOrder] *)
Module Draft.
Import JsDate OrderIds.

(** [updateDraftQty(itemId, qty)]. *)
Definition updateDraftQty (itemId : string) (qty : Z) (prev : gmap string Z) : gmap string Z :=
  if qty <=? 0 then delete itemId prev else <[itemId := qty]> prev.

(** [Object.entries(draftQty).filter(([, qty]) => qty > 0).map(...)]; the
    entries come in the map's order (the statements below do not depend
    on it). *)
Definition selected (draftQty : gmap string Z) : list OrderItem :=
  map (fun kv => {| itemId := kv.1; qty := kv.2 |})
      (List.filter (fun kv => 0 <? kv.2) (map_to_list draftQty)).

(** The node [set] at [orders/<push key>]. *)
Definition new_order_node (draftWaiter : string) (sel : list OrderItem) (orders : list Order)
  (now : Z) : OrderNode := {|
  n_id := Some (nextOrderId (map oid orders));
  n_waiterId := Some draftWaiter;
  n_time := Some (toISOString now);
  n_status := Some Pending;
  n_collector := Some "";
  n_items := sel |}.

(** [handleCreateOrder()]: [k] is the key of [push(dbPath('orders'))],
    [now] is [Date.now()], [ok] the store's answer to the [set].  Result:
    the store, the draft and the banner. *)
Definition handleCreateOrder (draftWaiter : string) (draftQty : gmap string Z)
  (orders : list Order) (k : string) (now : Z) (ok : bool) (s : Store)
  : Store * gmap string Z * Banner :=
  let sel := selected draftQty in
  if String.eqb draftWaiter "" then (s, draftQty, BError "Pick a waiter to assign the order.")
  else if (length sel =? 0)%nat then (s, draftQty, BError "Add at least one item before submitting.")
  else if ok then
    (with_orders s (<[k := new_order_node draftWaiter sel orders now]> (orders_db s)), ∅,
     BSuccess "Order captured and stock updated.")
  else (s, draftQty, BError "write failed").

End Draft.

(** ** The orders screen, the dashboard and the orders snapshot *)
Module Views.
Import JsString JsSort Auth.

Section OrderViews.

Variable itemsById : gmap string Item.
Variable users : list Auth.User.
(** [new Date(s).getTime()]: [None] is [NaN]. *)
Variable parseTime : string -> option Z.

(** [Object.fromEntries(users.map((user) => [user.id, user]))]: for a
    repeated id the later user wins. *)
Definition usersById : gmap string Auth.User :=
  fold_left (fun m u => <[u_id u := u]> m) users ∅.

(** [ordersFiltered]: the waiter filter (the value ['all'] lets all
    through) and the search in [`${order.id} ${waiter name}`]. *)
Definition ordersFiltered (orderWaiterFilter search : string) (orders : list Order) : list Order :=
  List.filter (fun o =>
    if negb (String.eqb orderWaiterFilter "all") && negb (String.eqb (waiterId o) orderWaiterFilter)
    then false
    else includes (toLowerCase (oid o ++ " " ++ default "" (u_name <$> usersById !! waiterId o)))
                  (toLowerCase (trim search))) orders.

Definition activeOrders (l : list Order) : list Order := List.filter (fun o => bool_decide (status o = Pending)) l.
Definition paidOrders (l : list Order) : list Order := List.filter (fun o => bool_decide (status o = Paid)) l.
Definition loanOrders (l : list Order) : list Order := List.filter (fun o => bool_decide (status o = Loan)) l.
Definition doneOrders (l : list Order) : list Order := paidOrders l ++ loanOrders l.

Inductive OrderFilter := FilterAll | FilterActive | FilterDone | FilterPaid | FilterLoan.

Definition orderList (f : OrderFilter) (l : list Order) : list Order :=
  match f with
  | FilterAll => l
  | FilterActive => activeOrders l
  | FilterDone => doneOrders l
  | FilterPaid => paidOrders l
  | FilterLoan => loanOrders l
  end.

(** [orderPriority(order)]. *)
Definition orderPriority (o : Order) : Z :=
  match status o with Pending => 2 | Loan => 1 | Paid => 0 end.

(** [new Date(b.time).getTime() - new Date(a.time).getTime()] ([NaN]
    counts as [0]). *)
Definition time_desc (a b : Order) : Z :=
  match parseTime (time b), parseTime (time a) with
  | Some tb, Some ta => tb - ta
  | _, _ => 0
  end.

(** The comparator of [orderListSorted]. *)
Definition cmp_orders (a b : Order) : Z :=
  let pa := orderPriority a in
  let pb := orderPriority b in
  if negb (pa =? pb) then pb - pa else time_desc a b.

Definition orderListSorted (f : OrderFilter) (orderWaiterFilter search : string)
  (orders : list Order) : list Order :=
  sort_cmp cmp_orders (orderList f (ordersFiltered orderWaiterFilter search orders)).

(** [waiterCharts]: per user of role [waiter], in the order of [users]. *)
Record WaiterChart := { wc_waiter : Auth.User; wc_orders : nat; wc_loan : nat; wc_paid : nat }.

Definition waiterCharts (orders : list Order) : list WaiterChart :=
  map (fun w =>
    let l := List.filter (fun o => String.eqb (waiterId o) (u_id w)) orders in
    {| wc_waiter := w; wc_orders := length l;
       wc_loan := length (List.filter (fun o => bool_decide (status o = Loan)) l);
       wc_paid := length (List.filter (fun o => negb (bool_decide (status o = Loan))) l) |})
    (List.filter (fun u => bool_decide (u_role u = Waiter)) users).

(** [metrics]: the orders in scope (a waiter's own, everyone's otherwise). *)
Definition scopedOrders (currentUser : option Auth.User) (orders : list Order) : list Order :=
  match currentUser with
  | Some u => if bool_decide (u_role u = Waiter)
              then List.filter (fun o => String.eqb (waiterId o) (u_id u)) orders else orders
  | None => orders
  end.

(** A plain object used as a counter ([acc[k] = (acc[k] ?? 0) + 1]):
    its keys in creation order with their values. *)
Fixpoint obj_get (k : string) (m : list (string * Z)) : option Z :=
  match m with
  | [] => None
  | (k', v) :: m' => if String.eqb k k' then Some v else obj_get k m'
  end.

Fixpoint obj_set (k : string) (v : Z) (m : list (string * Z)) : list (string * Z) :=
  match m with
  | [] => [(k, v)]
  | (k', v') :: m' => if String.eqb k k' then (k, v) :: m' else (k', v') :: obj_set k v m'
  end.


Definition busiestWaiter (scoped : list Order) : list (string * Z) :=
  fold_left (fun acc o => obj_set (waiterId o) (default 0 (obj_get (waiterId o) acc) + 1) acc)
            scoped [].

(** An array index key: the canonical decimal form of an integer
    0..2^32-2. *)
Definition array_index (k : string) : option Z :=
  match OrderIds.digits_value k 0 with
  | Some n => if String.eqb (JsDate.dec n) k && (n <? 4294967295) then Some n else None
  | None => None
  end.

(** [Object.entries(obj)]: array index keys in ascending numeric order,
    then the other keys in creation order. *)
Definition entries (m : list (string * Z)) : list (string * Z) :=
  sort_cmp (fun a b => default 0 (array_index a.1) - default 0 (array_index b.1))
           (List.filter (fun kv => if array_index kv.1 then true else false) m) ++
  List.filter (fun kv => if array_index kv.1 then false else true) m.

(** [Object.entries(busiestWaiter).sort((a, b) => b[1] - a[1])[0]?.[0] ?? '...']:
    [None] is the fallback literal. *)
Definition topWaiterId (scoped : list Order) : option string :=
  match sort_cmp (fun a b => b.2 - a.2) (entries (busiestWaiter scoped)) with
  | (k, _) :: _ => Some k
  | [] => None
  end.

Record Metrics := {
  totalOrders : nat; totalItems : Z; topWaiter : option string; totalSales : Z; staffCount : nat
}.

Definition metrics (currentUser : option Auth.User) (orders : list Order) : Metrics :=
  let scoped := scopedOrders currentUser orders in
  {| totalOrders := length scoped;
     totalItems := fold_left (fun sum o => sum + fold_left (fun s i => s + qty i) (items o) 0) scoped 0;
     topWaiter := topWaiterId scoped;
     totalSales := fold_left (fun sum o => sum + fold_left (fun s e =>
                     s + qty e * default 0 (price <$> itemsById !! itemId e)) (items o) 0) scoped 0;
     staffCount := length (List.filter (fun u => negb (bool_decide (u_role u = Admin))) users) |}.

(** The [onValue(dbPath('orders'))] listener: the snapshot's entries
    ([Object.entries(val)]) mapped with [load_order], then sorted newest
    first. *)
Definition loadOrders (snapshot : list (string * OrderNode)) : list Order :=
  sort_cmp time_desc (map (fun kv => load_order kv.1 kv.2) snapshot).

End OrderViews.
End Views.

(** ** Two staff members *)
Module StaffSample.
Import Auth.

Definition admin : User := {| u_id := "a1"; u_dbId := Some "-A"; u_name := "Boss"; u_role := Admin;
  u_phone := "+252 61 0000001"; u_pin := "9999" |}.
Definition waiter : User := {| u_id := "w1"; u_dbId := Some "-W1"; u_name := "Amina"; u_role := Waiter;
  u_phone := "0612345678"; u_pin := "1234" |}.
Definition staff : list User := [admin; waiter].

End StaffSample.


(** * Settlement and ledger properties *)

Lemma set_loan_entry_at (s : Store) (p k x j : string) (e : LoanEntry) :
  entry_at (with_customers s (set_loan p k e (customers_db s))) x j =
  if bool_decide ((x, j) = (p, k)) then Some e else entry_at s x j.
Proof.
  unfold entry_at, set_loan; simpl.
  destruct (customers_db s !! p) as [c|] eqn:Hp;
    destruct (decide (x = p)) as [->|Hx].
  - rewrite lookup_insert_eq; simpl.
    destruct (decide (j = k)) as [->|Hj].
    + rewrite lookup_insert_eq, bool_decide_eq_true_2; auto.
    + rewrite lookup_insert_ne, bool_decide_eq_false_2, Hp; simpl; auto; congruence.
  - rewrite lookup_insert_ne, bool_decide_eq_false_2; auto; congruence.
  - rewrite lookup_insert_eq, Hp; simpl.
    destruct (decide (j = k)) as [->|Hj].
    + rewrite lookup_singleton_eq, bool_decide_eq_true_2; auto.
    + rewrite lookup_singleton_ne, bool_decide_eq_false_2; auto; congruence.
  - rewrite lookup_insert_ne, bool_decide_eq_false_2; auto; congruence.
Qed.

Lemma existsb_loans_iff (c : LoanCustomer) (i : string) :
  existsb (fun l => bool_decide (orderId l = i)) (map snd (map_to_list (loans c))) = true <->
  exists j e, loans c !! j = Some e /\ orderId e = i.
Proof.
  rewrite existsb_exists. split.
  - intros (e & He & Hb). apply bool_decide_eq_true in Hb.
    apply in_map_iff in He as ([j e'] & <- & Hin).
    apply list_elem_of_In, elem_of_map_to_list in Hin. eauto.
  - intros (j & e & Hj & Hi). exists e. split.
    + apply in_map_iff. exists (j, e). split; [done|].
      apply list_elem_of_In, elem_of_map_to_list. done.
    + by apply bool_decide_eq_true.
Qed.

Lemma confirmLoanStatus_unfold iB uB cu orders custs oidS cidS k ok1 ok2 s o c :
  oidS <> "" -> cidS <> "" ->
  find (fun o => bool_decide (oid o = oidS)) orders = Some o ->
  find (fun c => bool_decide (lc_id c = cidS)) custs = Some c ->
  confirmLoanStatus iB uB cu orders custs oidS cidS k ok1 ok2 s =
  fst (addLoanEntryForOrder iB uB o c k ok2 (fst (updateOrderStatus cu (oid o) Loan ok1 s))).
Proof.
  intros H1 H2 Ho Hc. unfold confirmLoanStatus.
  rewrite !bool_decide_eq_false_2 by done. simpl. by rewrite Ho, Hc.
Qed.

(** C1 (counterexample).  The status write succeeds and the ledger write
    is rejected: the order is marked [loan] while the ledger is unchanged. *)
Lemma confirmLoanStatus_half_applied :
  let s' := confirmLoanStatus Sample.itemsById Sample.users (Some Sample.actor)
              (Sample.orders Sample.store_fresh) (Sample.customers Sample.store_fresh)
              "order001" "X" "-Lnew" true false Sample.store_fresh in
  customers_db s' = customers_db Sample.store_fresh /\
  (orders_db s' !! "order001" ≫= n_status) = Some Loan /\
  (orders_db Sample.store_fresh !! "order001" ≫= n_status) = Some Pending.
Proof. vm_compute. auto. Qed.

(** C1 (amended).  The settlement issues two independent writes: the
    order's [status]/[collector] merge takes effect iff its own write
    succeeds ([ok1]), the ledger insertion is decided by the ledger write
    alone ([ok2]); a rejected ledger write leaves the ledger unchanged
    whatever happened to the status, and conversely. *)
Theorem confirmLoanStatus_independent_writes iB uB cu orders custs oidS cidS k ok1 ok2 s o c :
  oidS <> "" -> cidS <> "" ->
  find (fun o => bool_decide (oid o = oidS)) orders = Some o ->
  find (fun c => bool_decide (lc_id c = cidS)) custs = Some c ->
  let s' := confirmLoanStatus iB uB cu orders custs oidS cidS k ok1 ok2 s in
  orders_db s' = (if ok1 then <[oid o := merge_status Loan (collectorFor cu Loan) (orders_db s !! oid o)]>
                                (orders_db s) else orders_db s) /\
  customers_db s' = customers_db (fst (addLoanEntryForOrder iB uB o c k ok2 s)) /\
  (ok2 = false -> customers_db s' = customers_db s).
Proof.
  intros H1 H2 Ho Hc s'. subst s'. rewrite (confirmLoanStatus_unfold _ _ _ _ _ _ _ _ _ _ _ o c) by done.
  unfold addLoanEntryForOrder, updateOrderStatus.
  destruct existsb, ok1, ok2; simpl; repeat split; try reflexivity; discriminate.
Qed.

Lemma confirmLoanStatus_independent_writes_witness :
  ("order001" <> "" /\ "X" <> "" /\
   find (fun o => bool_decide (oid o = "order001")) (Sample.orders Sample.store_fresh) = Some Sample.order1 /\
   find (fun c => bool_decide (lc_id c = "X")) (Sample.customers Sample.store_fresh) = Some Sample.cX) /\
  let s' := confirmLoanStatus Sample.itemsById Sample.users (Some Sample.actor)
              (Sample.orders Sample.store_fresh) (Sample.customers Sample.store_fresh)
              "order001" "X" "-Lnew" true false Sample.store_fresh in
  orders_db s' = (if true then <[oid Sample.order1 := merge_status Loan (collectorFor (Some Sample.actor) Loan)
                                  (orders_db Sample.store_fresh !! oid Sample.order1)]>
                                (orders_db Sample.store_fresh) else orders_db Sample.store_fresh) /\
  customers_db s' = customers_db (fst (addLoanEntryForOrder Sample.itemsById Sample.users Sample.order1
                                        Sample.cX "-Lnew" false Sample.store_fresh)) /\
  (false = false -> customers_db s' = customers_db Sample.store_fresh).
Proof.
  assert (H1 : "order001" <> "") by discriminate.
  assert (H2 : "X" <> "") by discriminate.
  assert (H3 : find (fun o => bool_decide (oid o = "order001")) (Sample.orders Sample.store_fresh)
               = Some Sample.order1) by (vm_compute; reflexivity).
  assert (H4 : find (fun c => bool_decide (lc_id c = "X")) (Sample.customers Sample.store_fresh)
               = Some Sample.cX) by (vm_compute; reflexivity).
  split; [auto|].
  exact (confirmLoanStatus_independent_writes Sample.itemsById Sample.users (Some Sample.actor)
           (Sample.orders Sample.store_fresh) (Sample.customers Sample.store_fresh)
           "order001" "X" "-Lnew" true false Sample.store_fresh Sample.order1 Sample.cX H1 H2 H3 H4).
Defined.


Lemma updateOrderStatus_customers cu i st ok s :
  customers_db (fst (updateOrderStatus cu i st ok s)) = customers_db s.
Proof. unfold updateOrderStatus; by destruct ok. Qed.

Lemma entry_at_customers (s1 s2 : Store) x j :
  customers_db s1 = customers_db s2 -> entry_at s1 x j = entry_at s2 x j.
Proof. unfold entry_at. by intros ->. Qed.

(** C2 (counterexample).  Loaning order001 to X, resetting it to pending
    and loaning it to Y leaves two ledger entries for order001. *)
Lemma loan_to_two_customers_duplicates :
  let s1 := confirmLoanStatus Sample.itemsById Sample.users (Some Sample.actor)
              (Sample.orders Sample.store_fresh) (Sample.customers Sample.store_fresh)
              "order001" "X" "-L1" true true Sample.store_fresh in
  let s2 := fst (updateOrderStatus (Some Sample.actor) "order001" Pending true s1) in
  let s3 := confirmLoanStatus Sample.itemsById Sample.users (Some Sample.actor)
              (Sample.orders s2) (Sample.customers s2) "order001" "Y" "-L2" true true s2 in
  length (filter (fun e => orderId e = "order001") (all_entries s3)) = 2%nat.
Proof. vm_compute. reflexivity. Qed.

(** C2 (amended).  The [pending -> loan] transition consults only the
    chosen customer's loans: when that customer already holds an entry for
    the order, the ledger is left as is; otherwise, once the ledger write
    is accepted, an entry for the order is stored under that customer at
    the pushed key [k] and every other entry keeps its value, so an entry
    for the same order held anywhere else stays beside the new one. *)
Theorem confirmLoanStatus_checks_target_only iB uB cu orders custs oidS cidS k ok1 ok2 s o c :
  oidS <> "" -> cidS <> "" ->
  find (fun o => bool_decide (oid o = oidS)) orders = Some o ->
  find (fun c => bool_decide (lc_id c = cidS)) custs = Some c ->
  let s' := confirmLoanStatus iB uB cu orders custs oidS cidS k ok1 ok2 s in
  let p := default (lc_id c) (dbId c) in
  ((exists j e, loans c !! j = Some e /\ orderId e = oid o) -> customers_db s' = customers_db s) /\
  ((forall j e, loans c !! j = Some e -> orderId e <> oid o) -> ok2 = true ->
     (exists e, entry_at s' p k = Some e /\ orderId e = oid o) /\
     (forall x j, (x, j) <> (p, k) -> entry_at s' x j = entry_at s x j) /\
     (forall x j e', (x, j) <> (p, k) -> entry_at s x j = Some e' -> orderId e' = oid o ->
        exists e, entry_at s' x j = Some e' /\ entry_at s' p k = Some e /\ orderId e = oid o)).
Proof.
  intros H1 H2 Ho Hc s' p. subst s' p.
  rewrite (confirmLoanStatus_unfold _ _ _ _ _ _ _ _ _ _ _ o c) by done.
  split.
  - intros Hex. apply existsb_loans_iff in Hex. unfold addLoanEntryForOrder. rewrite Hex.
    apply updateOrderStatus_customers.
  - intros Hno ->. unfold addLoanEntryForOrder.
    destruct existsb eqn:He.
    { apply existsb_loans_iff in He as (j & e & Hj & Hi). exfalso. eapply Hno; eauto. }
    simpl.
    assert (Hnew : exists e, entry_at (with_customers (fst (updateOrderStatus cu (oid o) Loan ok1 s))
                 (set_loan (default (lc_id c) (dbId c)) k
                    {| entry_id := k; orderId := oid o; amount := orderTotal iB o;
                       date := time o; servedBy := servedByOf uB o |}
                    (customers_db (fst (updateOrderStatus cu (oid o) Loan ok1 s)))))
                 (default (lc_id c) (dbId c)) k = Some e /\ orderId e = oid o).
    { rewrite set_loan_entry_at, bool_decide_eq_true_2 by done. eauto. }
    assert (Hold : forall x j, (x, j) <> (default (lc_id c) (dbId c), k) ->
              entry_at (with_customers (fst (updateOrderStatus cu (oid o) Loan ok1 s))
                 (set_loan (default (lc_id c) (dbId c)) k
                    {| entry_id := k; orderId := oid o; amount := orderTotal iB o;
                       date := time o; servedBy := servedByOf uB o |}
                    (customers_db (fst (updateOrderStatus cu (oid o) Loan ok1 s))))) x j
              = entry_at s x j).
    { intros x j Hxj. rewrite set_loan_entry_at, bool_decide_eq_false_2 by done.
      apply entry_at_customers, updateOrderStatus_customers. }
    split; [exact Hnew|]. split; [exact Hold|].
    intros x j e' Hxj Hs _. destruct Hnew as (e & He1 & He2).
    exists e. rewrite Hold by exact Hxj. auto.
Qed.

Lemma confirmLoanStatus_checks_target_only_witness :
  ("order001" <> "" /\ "Y" <> "" /\
   find (fun o => bool_decide (oid o = "order001")) (Sample.orders Sample.store0) = Some Sample.order1 /\
   find (fun c => bool_decide (lc_id c = "Y")) (Sample.customers Sample.store0) = Some Sample.cY /\
   (forall j e, loans Sample.cY !! j = Some e -> orderId e <> oid Sample.order1)) /\
  let s' := confirmLoanStatus Sample.itemsById Sample.users (Some Sample.actor)
              (Sample.orders Sample.store0) (Sample.customers Sample.store0)
              "order001" "Y" "-L2" true true Sample.store0 in
  exists e, entry_at s' "-Cx" "-Lx" = Some Sample.entryX /\ entry_at s' "-Cy" "-L2" = Some e /\
            orderId e = "order001".
Proof.
  assert (H1 : "order001" <> "") by discriminate.
  assert (H2 : "Y" <> "") by discriminate.
  assert (H3 : find (fun o => bool_decide (oid o = "order001")) (Sample.orders Sample.store0) = Some Sample.order1)
    by (vm_compute; reflexivity).
  assert (H4 : find (fun c => bool_decide (lc_id c = "Y")) (Sample.customers Sample.store0) = Some Sample.cY)
    by (vm_compute; reflexivity).
  assert (H5 : forall j e, loans Sample.cY !! j = Some e -> orderId e <> oid Sample.order1).
  { intros j e Hj. vm_compute in Hj. discriminate. }
  split; [auto|].
  destruct (confirmLoanStatus_checks_target_only Sample.itemsById Sample.users (Some Sample.actor)
              (Sample.orders Sample.store0) (Sample.customers Sample.store0) "order001" "Y" "-L2" true true
              Sample.store0 Sample.order1 Sample.cY H1 H2 H3 H4) as [_ Hc].
  destruct (Hc H5 eq_refl) as (_ & _ & Hdup).
  exact (Hdup "-Cx" "-Lx" Sample.entryX ltac:(discriminate) ltac:(vm_compute; reflexivity)
           ltac:(vm_compute; reflexivity)).
Defined.

(** C3 (counterexample).  X holds the loan of order001; the manual
    "add loan entry" for order001 under Y reports success, stores a second
    entry for order001 under Y, and X's entry stays. *)
Lemma addLoanEntry_accepts_duplicate :
  let r := addLoanEntry Sample.itemsById Sample.users (Sample.orders Sample.store0)
             (Sample.customers Sample.store0) "Y" "order001" "1704449400000" true Sample.store0 in
  r.2 = BSuccess "Loan entry added." /\
  (orderId <$> entry_at r.1 "-Cy" "loan-1704449400000") = Some "order001" /\
  entry_at r.1 "-Cx" "-Lx" = Some Sample.entryX.
Proof. vm_compute. auto. Qed.

(** C3 (amended).  There is no duplicate-order check on the manual path:
    once both selections resolve and the store accepts the write,
    [addLoanEntry] reports success and stores the new entry under the
    chosen customer, every other entry (another customer's entry for the
    same order included) keeping its value. *)
Theorem addLoanEntry_appends_entry iB uB orders custs cid oidS now s c o :
  cid <> "" -> oidS <> "" ->
  find (fun c => bool_decide (lc_id c = cid)) custs = Some c ->
  find (fun o => bool_decide (oid o = oidS)) orders = Some o ->
  let r := addLoanEntry iB uB orders custs cid oidS now true s in
  let p := default (lc_id c) (dbId c) in
  r.2 = BSuccess "Loan entry added." /\
  entry_at r.1 p ("loan-" ++ now) =
    Some {| entry_id := "loan-" ++ now; orderId := oid o; amount := orderTotal iB o;
            date := time o; servedBy := servedByOf uB o |} /\
  (forall x j, (x, j) <> (p, ("loan-" ++ now)%string) -> entry_at r.1 x j = entry_at s x j).
Proof.
  intros H1 H2 Hc Ho r p. subst r p. unfold addLoanEntry.
  rewrite !bool_decide_eq_false_2 by done. simpl. rewrite Hc, Ho. simpl.
  split; [done|]. split.
  - rewrite set_loan_entry_at, bool_decide_eq_true_2; done.
  - intros x j Hxj. rewrite set_loan_entry_at, bool_decide_eq_false_2; done.
Qed.

Lemma addLoanEntry_appends_entry_witness :
  ("Y" <> "" /\ "order001" <> "" /\
   find (fun c => bool_decide (lc_id c = "Y")) (Sample.customers Sample.store0) = Some Sample.cY /\
   find (fun o => bool_decide (oid o = "order001")) (Sample.orders Sample.store0) = Some Sample.order1) /\
  let r := addLoanEntry Sample.itemsById Sample.users (Sample.orders Sample.store0)
             (Sample.customers Sample.store0) "Y" "order001" "1704449400000" true Sample.store0 in
  let p := default (lc_id Sample.cY) (dbId Sample.cY) in
  r.2 = BSuccess "Loan entry added." /\
  entry_at r.1 p ("loan-" ++ "1704449400000") =
    Some {| entry_id := "loan-" ++ "1704449400000"; orderId := oid Sample.order1;
            amount := orderTotal Sample.itemsById Sample.order1;
            date := time Sample.order1; servedBy := servedByOf Sample.users Sample.order1 |} /\
  (forall x j, (x, j) <> (p, ("loan-" ++ "1704449400000")%string) -> entry_at r.1 x j = entry_at Sample.store0 x j).
Proof.
  assert (H1 : "Y" <> "") by discriminate.
  assert (H2 : "order001" <> "") by discriminate.
  assert (H3 : find (fun c => bool_decide (lc_id c = "Y")) (Sample.customers Sample.store0) = Some Sample.cY)
    by (vm_compute; reflexivity).
  assert (H4 : find (fun o => bool_decide (oid o = "order001")) (Sample.orders Sample.store0) = Some Sample.order1)
    by (vm_compute; reflexivity).
  split; [auto|].
  exact (addLoanEntry_appends_entry Sample.itemsById Sample.users (Sample.orders Sample.store0)
           (Sample.customers Sample.store0) "Y" "order001" "1704449400000" Sample.store0
           Sample.cY Sample.order1 H1 H2 H3 H4).
Defined.




(** The [pending -> paid] transition on an order stored under its own id:
    only its [status] and [collector] fields change, and nothing else in
    the store. *)
Lemma handleStatusChange_paid_keyed cu o n s :
  orders_db s !! oid o = Some n ->
  handleStatusChange cu o Paid true s =
  Some ({| orders_db := <[oid o := {| n_id := n_id n; n_waiterId := n_waiterId n; n_time := n_time n;
                                       n_status := Some Paid;
                                       n_collector := Some (default "Unknown" (user_name <$> cu));
                                       n_items := n_items n |}]> (orders_db s);
           customers_db := customers_db s |}, BSuccess "Order status updated.").
Proof. intros Hn. simpl. unfold updateOrderStatus. simpl. by rewrite Hn. Qed.

(** C5 (divergence).  For an order created by [handleCreateOrder] (stored
    under its push key ["-Nx1"] with [id: 'order001']), the [paid]
    transition writes to [orders/order001]: the order itself stays
    [pending] and a second node, with only [status] and [collector],
    appears in the store. *)
Theorem paid_transition_writes_wrong_path :
  match handleStatusChange (Some Sample.actor) (load_order "-Nx1" Sample.node1) Paid true
          Sample.store_pushed with
  | Some (s', _) =>
      orders_db s' !! "-Nx1" = Some Sample.node1 /\
      orders_db s' !! "order001" =
        Some {| n_id := None; n_waiterId := None; n_time := None; n_status := Some Paid;
                n_collector := Some "Hodan"; n_items := [] |} /\
      orders_db Sample.store_pushed !! "order001" = None
  | None => False
  end.
Proof. vm_compute. auto. Qed.

(** * Report properties *)

Lemma setHours_end_of_day tz e :
  Report.setHours tz 23 59 59 999 e = Report.end_of_local_day tz e.
Proof.
  unfold Report.setHours, Report.end_of_local_day, Report.LocalTime, JsDate.Day, JsDate.msPerDay.
  rewrite (Z.mod_eq (e + tz) 86400000) by lia. lia.
Qed.

Lemma reportFilter_true parseTime tz start end_ st o :
  Report.reportFilter parseTime tz start end_ st o = true <->
  exists t, parseTime (time o) = Some t /\
    (forall s, start = Some s -> s <= t) /\
    (forall e, end_ = Some e -> t <= Report.end_of_local_day tz e) /\
    Report.status_ok st (status o).
Proof.
  unfold Report.reportFilter.
  destruct (parseTime (time o)) as [t|] eqn:Ht;
    [|split; [discriminate | intros (t' & Ht' & _); discriminate]].
  destruct start as [s|], end_ as [e|]; simpl; rewrite ?setHours_end_of_day;
    destruct st, (status o); simpl;
    repeat match goal with |- context [if ?a <? ?b then _ else _] => destruct (Z.ltb_spec a b) end;
    simpl; split;
    try (let Hf := fresh in intros Hf; discriminate Hf);
    try (intros _; exists t; repeat split; intros; simplify_eq; try lia; done);
    intros (t' & Ht' & Hs & He & Hst); simplify_eq;
    try specialize (Hs _ eq_refl); try specialize (He _ eq_refl); try (simpl in Hst);
    try discriminate; lia.
Qed.

(** C6.  The aggregator keeps an order iff its time parses to an instant
    [t], [t] is not before the start bound, not after the last millisecond
    (23:59:59.999 local) of the end bound's day, and the status filter
    admits the order's status ([all] every status, [paid]/[loan] only that
    one, so [pending] only under [all]). *)
Theorem reportRows_filter_spec parseTime tz start end_ st (orders : list Order) (o : Order) :
  o ∈ filter (Report.reportFilter parseTime tz start end_ st) orders <->
  o ∈ orders /\
  exists t, parseTime (time o) = Some t /\
    (forall s, start = Some s -> s <= t) /\
    (forall e, end_ = Some e -> t <= Report.end_of_local_day tz e) /\
    Report.status_ok st (status o).
Proof.
  rewrite list_elem_of_filter.
  pose proof (reportFilter_true parseTime tz start end_ st o) as Hr.
  destruct (Report.reportFilter parseTime tz start end_ st o); simpl.
  - pose proof (proj1 Hr eq_refl). tauto.
  - split; [intros [[] _] | intros [_ HX]; apply Hr in HX; discriminate].
Qed.

(** ** ISO weeks *)
Section Weeks.
Import JsDate Report.

Lemma est_bounds d : DayFromYear (year_estimate d - 1) <= d < DayFromYear (year_estimate d + 2).
Proof. unfold DayFromYear, year_estimate. Z.div_mod_to_equations; lia. Qed.
Lemma DayFromYear_mono a b : a <= b -> DayFromYear a <= DayFromYear b.
Proof. unfold DayFromYear. intros. Z.div_mod_to_equations; lia. Qed.
Lemma YearFromDay_spec d : DayFromYear (YearFromDay d) <= d < DayFromYear (YearFromDay d + 1).
Proof.
  pose proof (est_bounds d) as Hb. unfold YearFromDay.
  set (e := year_estimate d) in *.
  destruct (Z.leb_spec (DayFromYear (e + 1)) d).
  - replace (e + 1 + 1) with (e + 2) by lia. lia.
  - destruct (Z.leb_spec (DayFromYear e) d).
    + lia.
    + replace (e - 1 + 1) with e by lia. lia.
Qed.
Lemma month_start_nonneg b m : 0 <= month_start b m.
Proof.
  unfold month_start. destruct b; destruct m; try lia;
  repeat (match goal with |- context [match ?p with _ => _ end] => destruct p end); lia.
Qed.
Lemma dayNum_iso D : (match WeekDay D with 0 => 7 | n => n end) = iso_dow D.
Proof.
  unfold WeekDay, iso_dow.
  pose proof (Z.mod_pos_bound (D + 4) 7 ltac:(lia)).
  destruct ((D + 4) mod 7) eqn:E.
  - Z.div_mod_to_equations; lia.
  - Z.div_mod_to_equations; lia.
  - lia.
Qed.
Lemma Date_UTC_Jan1 Y : 100 <= Y -> Date_UTC Y 0 1 = DayFromYear Y.
Proof.
  intros H. unfold Date_UTC, MakeFullYear, MakeDay.
  destruct (Z.leb_spec 0 Y), (Z.leb_spec Y 99); try lia; simpl.
  rewrite Zdiv_0_l, !Z.add_0_r. lia.
Qed.
Lemma getWeekId_iso y m dt : 101 <= y -> 0 <= m <= 11 -> 1 <= dt ->
  iso_week (calendar_day y m dt) (fst (getWeekId_fields y m dt)) (snd (getWeekId_fields y m dt)).
Proof.
  intros Hy Hm Hdt. unfold getWeekId_fields, calendar_day. cbv zeta. cbn [fst snd].
  assert (Hfull : Date_UTC y m dt = MakeDay y m dt).
  { unfold Date_UTC, MakeFullYear. destruct (Z.leb_spec 0 y), (Z.leb_spec y 99); simpl; auto; lia. }
  rewrite Hfull, dayNum_iso.
  set (D := MakeDay y m dt).
  assert (HD : DayFromYear y <= D).
  { unfold D, MakeDay. rewrite (Z.div_small m 12), (Z.mod_small m 12) by lia.
    rewrite Z.add_0_r. pose proof (month_start_nonneg (InLeapYear y) m). lia. }
  assert (Hdow : 1 <= iso_dow D <= 7) by (unfold iso_dow; pose proof (Z.mod_pos_bound (D + 3) 7); lia).
  set (T := D + 4 - iso_dow D).
  pose proof (YearFromDay_spec T) as HT.
  set (Y := YearFromDay T) in *.
  assert (HY : 100 <= Y).
  { destruct (Z.le_gt_cases 100 Y) as [|HY]; [assumption|].
    pose proof (DayFromYear_mono (Y + 1) 100 ltac:(lia)).
    pose proof (DayFromYear_mono 101 y Hy).
    assert (DayFromYear 100 + 3 < DayFromYear 101) by (vm_compute; reflexivity).
    lia. }
  rewrite Date_UTC_Jan1 by assumption.
  unfold iso_week, week1_monday, first_thursday.
  fold Y.
  generalize dependent (DayFromYear Y). generalize dependent (DayFromYear (Y + 1)).
  intros J' J HT. subst T. unfold iso_dow in *.
  Z.div_mod_to_equations. lia.
Qed.

Lemma week1_monday_lt a b : a < b -> week1_monday a < week1_monday b.
Proof.
  intros H. pose proof (DayFromYear_mono (a + 1) b ltac:(lia)).
  assert (365 <= DayFromYear (a + 1) - DayFromYear a)
    by (unfold DayFromYear; Z.div_mod_to_equations; lia).
  unfold week1_monday, first_thursday, iso_dow. Z.div_mod_to_equations. lia.
Qed.

(** The ISO week of a day is unique. *)
Lemma iso_week_unique D Y n Y' n' : iso_week D Y n -> iso_week D Y' n' -> Y = Y' /\ n = n'.
Proof.
  intros [[H1 H2] Hn] [[H1' H2'] Hn'].
  assert (Y = Y').
  { destruct (Z.lt_trichotomy Y Y') as [Hl|[He|Hl]]; [|done|].
    - pose proof (week1_monday_lt (Y + 1) Y'). destruct (Z.eq_dec (Y + 1) Y'); subst; lia.
    - pose proof (week1_monday_lt (Y' + 1) Y). destruct (Z.eq_dec (Y' + 1) Y); subst; lia. }
  subst. split; lia.
Qed.

(** C7 (divergence).  2024-12-31 gets [2025-W1] as the spec's example says,
    but for a date in a year 0..99, e.g. 0050-01-01, [Date.UTC] reads the
    year as 1950: the key is [1949-W52] (the ISO week of 1950-01-01), while
    the ISO week of 0050-01-01 is in ISO year 49 or 50, not 1949. *)
Theorem getWeekId_two_digit_year :
  getWeekId 2024 11 31 = "2025-W1" /\
  getWeekId 50 0 1 = "1949-W52" /\
  ~ exists n, iso_week (calendar_day 50 0 1) 1949 n.
Proof.
  split; [vm_compute; reflexivity|]. split; [vm_compute; reflexivity|].
  intros (n & [[H1 _] _]). vm_compute in H1. apply H1. reflexivity.
Qed.

End Weeks.

(** ** Export totals *)
Section ExportTotals.
Import Report.

Lemma total_fold N (add : N -> N -> N) (rows : list (ReportRow N)) (acc : Totals N) :
  fold_left (total_step N add) rows acc =
  {| t_ordersCount := fold_left (fun s r => add s (ordersCount r)) rows (t_ordersCount N acc);
     t_itemsCount := fold_left (fun s r => add s (itemsCount r)) rows (t_itemsCount N acc);
     t_sales := fold_left (fun s r => add s (sales r)) rows (t_sales N acc);
     t_paid := fold_left (fun s r => add s (paid r)) rows (t_paid N acc);
     t_loan := fold_left (fun s r => add s (loan r)) rows (t_loan N acc);
     t_pending := fold_left (fun s r => add s (pending r)) rows (t_pending N acc) |}.
Proof.
  revert acc. induction rows as [|r rows IH]; intros acc; simpl.
  - by destruct acc.
  - rewrite IH. reflexivity.
Qed.

(** C8.  For any number type and addition (JS doubles included), the
    grand total of the CSV export and of the printable document is the
    field-wise left-to-right sum over the rows, the same fold the
    on-screen total row computes over the same [reportRows]; the CSV's
    last line is the [Total] line of that on-screen total. *)
Theorem export_total_is_screen_total N (add : N -> N -> N) (zero : N) (show toFixed2 : N -> string)
    (rows : list (ReportRow N)) :
  csvTotal N add zero rows = screenTotal N add zero rows /\
  printTotal N add zero rows = screenTotal N add zero rows /\
  t_sales N (screenTotal N add zero rows) = fold_left (fun s r => add s (sales r)) rows zero /\
  exportReportCSV N add zero show toFixed2 rows =
    String.concat (String (Ascii.ascii_of_nat 10) EmptyString)
      (map csv_line ([csv_header] ++ map (row_cells N show toFixed2) rows ++
                     [total_cells N show toFixed2 (screenTotal N add zero rows)])).
Proof.
  assert (Hc : csvTotal N add zero rows = screenTotal N add zero rows).
  { unfold csvTotal. rewrite total_fold. reflexivity. }
  split; [exact Hc|]. split; [exact Hc|]. split; [reflexivity|].
  unfold exportReportCSV. rewrite Hc. reflexivity.
Qed.

End ExportTotals.

Section Labels.
Import JsDate Report.

Lemma string_length_app (s t : string) : String.length (s ++ t) = (String.length s + String.length t)%nat.
Proof. induction s as [|c s IH]; simpl; auto. Qed.

Lemma compare_app_eqlen (s1 s2 t1 t2 : string) : String.length s1 = String.length s2 ->
  String.compare (s1 ++ t1) (s2 ++ t2) =
  match String.compare s1 s2 with Eq => String.compare t1 t2 | c => c end.
Proof.
  revert s2. induction s1 as [|c s1 IH]; intros [|c' s2] H; simpl in *; try discriminate; auto.
  destruct (Ascii.compare c c'); try reflexivity. apply IH. lia.
Qed.

Lemma string_compare_refl (p : string) : String.compare p p = Eq.
Proof.
  induction p as [|c p IH]; simpl; [reflexivity|].
  unfold Ascii.compare. rewrite N.compare_refl. exact IH.
Qed.

Lemma compare_app_same (p t1 t2 : string) :
  String.compare (p ++ t1) (p ++ t2) = String.compare t1 t2.
Proof.
  rewrite compare_app_eqlen by reflexivity.
  rewrite string_compare_refl. reflexivity.
Qed.

Lemma pad_length w n : String.length (pad w n) = w.
Proof.
  revert n. induction w as [|w IH]; intros n; simpl; auto.
  rewrite string_length_app, IH. simpl. lia.
Qed.

Lemma digit_compare a b : 0 <= a <= 9 -> 0 <= b <= 9 ->
  Ascii.compare (digit a) (digit b) = Z.compare a b.
Proof.
  intros Ha Hb.
  assert (a = 0 \/ a = 1 \/ a = 2 \/ a = 3 \/ a = 4 \/ a = 5 \/ a = 6 \/ a = 7 \/ a = 8 \/ a = 9)
    as Ha' by lia.
  assert (b = 0 \/ b = 1 \/ b = 2 \/ b = 3 \/ b = 4 \/ b = 5 \/ b = 6 \/ b = 7 \/ b = 8 \/ b = 9)
    as Hb' by lia.
  destruct_or! Ha'; destruct_or! Hb'; subst; reflexivity.
Qed.

Lemma div_mod_compare a b : 0 <= a -> 0 <= b ->
  match Z.compare (a / 10) (b / 10) with Eq => Z.compare (a mod 10) (b mod 10) | c => c end =
  Z.compare a b.
Proof.
  intros Ha Hb.
  pose proof (Z.div_mod a 10 ltac:(lia)). pose proof (Z.div_mod b 10 ltac:(lia)).
  pose proof (Z.mod_pos_bound a 10 ltac:(lia)). pose proof (Z.mod_pos_bound b 10 ltac:(lia)).
  destruct (Z.compare_spec (a / 10) (b / 10));
    [destruct (Z.compare_spec (a mod 10) (b mod 10))| |];
    destruct (Z.compare_spec a b); try reflexivity; lia.
Qed.

Lemma pad_compare w a b : 0 <= a < 10 ^ Z.of_nat w -> 0 <= b < 10 ^ Z.of_nat w ->
  String.compare (pad w a) (pad w b) = Z.compare a b.
Proof.
  revert a b. induction w as [|w IH]; intros a b Ha Hb.
  - simpl in *. replace a with 0 by lia. replace b with 0 by lia. reflexivity.
  - rewrite Nat2Z.inj_succ, Z.pow_succ_r in Ha, Hb by lia. cbn [pad].
    rewrite compare_app_eqlen by (rewrite !pad_length; reflexivity).
    rewrite IH by (split; [apply Z.div_pos | apply Z.div_lt_upper_bound]; lia).
    cbn [String.compare]. rewrite digit_compare by (pose proof (Z.mod_pos_bound a 10); pose proof (Z.mod_pos_bound b 10); lia).
    rewrite <- (div_mod_compare a b) by lia.
    destruct (a / 10 ?= b / 10); [|reflexivity|reflexivity].
    by destruct (a mod 10 ?= b mod 10).
Qed.

Lemma dec_aux_pad k fuel n : (10 ^ Z.of_nat k <= n < 10 ^ Z.of_nat (S k)) -> (k <= fuel)%nat ->
  dec_aux fuel n = pad (S k) n.
Proof.
  revert fuel n. induction k as [|k IH]; intros fuel n Hn Hk.
  - simpl in Hn. assert (Hlt : (n <? 10) = true) by (apply Z.ltb_lt; lia).
    cbn [pad]. rewrite Z.mod_small by lia. cbn [String.append].
    destruct fuel; cbn [dec_aux]; [reflexivity|]. by rewrite Hlt.
  - destruct fuel as [|f]; [lia|].
    rewrite !Nat2Z.inj_succ, !Z.pow_succ_r in Hn by lia.
    assert (Hge : (n <? 10) = false).
    { apply Z.ltb_ge. pose proof (Z.pow_pos_nonneg 10 (Z.of_nat k)). lia. }
    cbn [dec_aux]. rewrite Hge. rewrite (IH f (n / 10)); [reflexivity| |lia].
    rewrite Nat2Z.inj_succ, Z.pow_succ_r by lia.
    split; [apply Z.div_le_lower_bound | apply Z.div_lt_upper_bound]; lia.
Qed.

Lemma dec_four_digits y : 1000 <= y <= 9999 -> dec y = pad 4 y.
Proof.
  intros Hy. unfold dec, dec_nat.
  assert (Hn : (y <? 0) = false) by (apply Z.ltb_ge; lia). rewrite Hn.
  apply dec_aux_pad; [simpl; lia|].
  assert (Hs : (Pos.size_nat 999 <= Pos.size_nat (Z.to_pos y))%nat).
  { apply Pos.size_nat_monotone. lia. }
  simpl in Hs. lia.
Qed.

Lemma month_pad k : 1 <= k <= 12 -> padStart0 2 (dec k) = pad 2 k.
Proof.
  intros Hk.
  assert (k = 1 \/ k = 2 \/ k = 3 \/ k = 4 \/ k = 5 \/ k = 6 \/ k = 7 \/ k = 8 \/ k = 9 \/
          k = 10 \/ k = 11 \/ k = 12) as H' by lia.
  destruct_or! H'; subst; reflexivity.
Qed.

Lemma daily_prefix y m d h mi s ms : 0 <= y <= 9999 ->
  String.substring 0 10 (iso_of_fields y m d h mi s ms) =
  (pad 4 y ++ "-" ++ pad 2 (m + 1) ++ "-" ++ pad 2 d)%string.
Proof.
  intros Hy. unfold iso_of_fields, iso_year.
  assert (H1 : (0 <=? y) = true) by (apply Z.leb_le; lia).
  assert (H2 : (y <=? 9999) = true) by (apply Z.leb_le; lia).
  rewrite H1, H2. cbn [andb pad String.append String.substring]. reflexivity.
Qed.

Lemma daily_compare y1 m1 d1 h1 mi1 s1 ms1 y2 m2 d2 h2 mi2 s2 ms2 :
  0 <= y1 <= 9999 -> 0 <= m1 <= 11 -> 1 <= d1 <= 99 ->
  0 <= y2 <= 9999 -> 0 <= m2 <= 11 -> 1 <= d2 <= 99 ->
  String.compare (String.substring 0 10 (iso_of_fields y1 m1 d1 h1 mi1 s1 ms1))
                 (String.substring 0 10 (iso_of_fields y2 m2 d2 h2 mi2 s2 ms2)) =
  period_compare y1 m1 d1 y2 m2 d2.
Proof.
  intros. rewrite !daily_prefix by lia. unfold period_compare.
  rewrite compare_app_eqlen by (rewrite !pad_length; reflexivity).
  rewrite pad_compare by (cbn -[Z.pow]; lia). destruct (y1 ?= y2); try reflexivity.
  rewrite compare_app_same, compare_app_eqlen by (rewrite !pad_length; reflexivity).
  rewrite pad_compare by (cbn -[Z.pow]; lia).
  replace (m1 + 1 ?= m2 + 1) with (m1 ?= m2) by (destruct (Z.compare_spec m1 m2), (Z.compare_spec (m1 + 1) (m2 + 1)); try reflexivity; lia).
  destruct (m1 ?= m2); try reflexivity.
  rewrite compare_app_same, pad_compare by (cbn -[Z.pow]; lia). reflexivity.
Qed.


Lemma year_length y : DayFromYear (y + 1) - DayFromYear y <= 366.
Proof. unfold DayFromYear. Z.div_mod_to_equations. lia. Qed.

Lemma MonthDate_bounds D y m d : MonthDate D = (y, m, d) -> 0 <= m <= 11 /\ 1 <= d <= 99.
Proof.
  unfold MonthDate. pose proof (YearFromDay_spec D) as Hs.
  pose proof (year_length (YearFromDay D)) as Hl.
  cbv zeta. set (Y := YearFromDay D) in *. set (doy := D - DayFromYear Y).
  assert (Hd : 0 <= doy < 366) by (unfold doy; lia). clearbody doy.
  destruct (InLeapYear Y); cbn [month_start];
  repeat (match goal with |- context [if (?a <? ?b) then _ else _] => destruct (Z.ltb_spec a b) end;
          cbn [month_start]);
  intros Heq; inversion Heq; subst; lia.
Qed.

Lemma daily_label_fields t y m d : MonthDate (Day t) = (y, m, d) ->
  exists h mi s ms, daily_label t = String.substring 0 10 (iso_of_fields y m d h mi s ms).
Proof.
  intros H. unfold daily_label, toISOString. rewrite H. eexists _, _, _, _. reflexivity.
Qed.

Lemma monthly_label_pad y m : 1000 <= y <= 9999 -> 0 <= m <= 11 ->
  monthly_label y m = (pad 4 y ++ "-" ++ pad 2 (m + 1))%string.
Proof.
  intros. unfold monthly_label. rewrite dec_four_digits, month_pad by lia. reflexivity.
Qed.

Lemma str_gt_false_desc a b : str_gt a b = false -> label_desc b a.
Proof.
  unfold str_gt, label_desc. rewrite (String.compare_antisym b a).
  destruct (String.compare a b); simpl; discriminate.
Qed.

Lemma str_gt_true_desc a b : str_gt a b = true -> label_desc a b.
Proof. unfold str_gt, label_desc. destruct (String.compare a b); simpl; discriminate. Qed.

Lemma insert_by_hd (y x : string * ReportStats) l :
  HdRel (fun a b => label_desc a.1 b.1) y l -> label_desc y.1 x.1 ->
  HdRel (fun a b => label_desc a.1 b.1) y (insert_by x l).
Proof.
  intros Hh Hyx. destruct l as [|z l]; simpl.
  - constructor. exact Hyx.
  - unfold cmp_label. destruct (str_gt x.1 z.1); simpl.
    + constructor. exact Hyx.
    + inversion Hh; subst. constructor. assumption.
Qed.

Lemma insert_by_sorted x l :
  Sorted (fun a b => label_desc a.1 b.1) l -> Sorted (fun a b => label_desc a.1 b.1) (insert_by x l).
Proof.
  induction 1 as [|z l Hs IH Hh]; simpl.
  - repeat constructor.
  - unfold cmp_label. destruct (str_gt x.1 z.1) eqn:Hg; simpl.
    + constructor; [constructor; assumption|]. constructor. apply str_gt_true_desc. exact Hg.
    + constructor; [exact IH|]. apply insert_by_hd; [exact Hh|]. apply str_gt_false_desc. exact Hg.
Qed.

Lemma sort_by_sorted l : Sorted (fun a b => label_desc a.1 b.1) (sort_by l).
Proof. induction l as [|x l IH]; simpl; [constructor|]. apply insert_by_sorted. exact IH. Qed.

Lemma insert_by_perm x l : insert_by x l ≡ₚ x :: l.
Proof.
  induction l as [|z l IH]; simpl; [reflexivity|].
  destruct (cmp_label x z <? 0); [reflexivity|].
  rewrite IH. apply Permutation_swap.
Qed.

Lemma sort_by_perm l : sort_by l ≡ₚ l.
Proof.
  induction l as [|x l IH]; simpl; [reflexivity|].
  rewrite insert_by_perm. constructor. exact IH.
Qed.

Lemma sorted_labels (l : list (string * ReportStats)) :
  Sorted (fun a b => label_desc a.1 b.1) l -> Sorted label_desc (map label (map toRow l)).
Proof.
  induction 1 as [|z l Hs IH Hh]; simpl; constructor; [exact IH|].
  destruct Hh; simpl; constructor. assumption.
Qed.

(** C9: every report's rows are sorted by label in descending string order
    (and are a reordering of the buckets); on the fixed-width daily
    (YYYY-MM-DD, years 0..9999), monthly (YYYY-MM) and yearly (YYYY) labels
    of four-digit years, string order is chronological order of the periods,
    so descending labels are most recent first. *)
Theorem reportRows_sorted_most_recent_first :
  (forall iB parseTime tz orders tab start end_ st,
     Sorted label_desc (map label (reportRows iB parseTime tz orders tab start end_ st)) /\
     reportRows iB parseTime tz orders tab start end_ st ≡ₚ
       map toRow (fold_left (bucket_step iB parseTime tz tab)
                            (filter (reportFilter parseTime tz start end_ st) orders) [])) /\
  (forall t1 t2 y1 m1 d1 y2 m2 d2,
     MonthDate (Day t1) = (y1, m1, d1) -> MonthDate (Day t2) = (y2, m2, d2) ->
     0 <= y1 <= 9999 -> 0 <= y2 <= 9999 ->
     String.compare (daily_label t1) (daily_label t2) = period_compare y1 m1 d1 y2 m2 d2) /\
  (forall y1 m1 y2 m2, 1000 <= y1 <= 9999 -> 1000 <= y2 <= 9999 ->
     0 <= m1 <= 11 -> 0 <= m2 <= 11 ->
     String.compare (monthly_label y1 m1) (monthly_label y2 m2) = period_compare y1 m1 1 y2 m2 1) /\
  (forall y1 y2, 1000 <= y1 <= 9999 -> 1000 <= y2 <= 9999 ->
     String.compare (yearly_label y1) (yearly_label y2) = Z.compare y1 y2).
Proof.
  split; [|split; [|split]].
  - intros. unfold reportRows. split.
    + apply sorted_labels, sort_by_sorted.
    + apply Permutation_map, sort_by_perm.
  - intros t1 t2 y1 m1 d1 y2 m2 d2 H1 H2 Hy1 Hy2.
    destruct (MonthDate_bounds _ _ _ _ H1), (MonthDate_bounds _ _ _ _ H2).
    destruct (daily_label_fields _ _ _ _ H1) as (h1 & mi1 & s1 & ms1 & ->).
    destruct (daily_label_fields _ _ _ _ H2) as (h2 & mi2 & s2 & ms2 & ->).
    apply daily_compare; lia.
  - intros y1 m1 y2 m2 Hy1 Hy2 Hm1 Hm2.
    rewrite !monthly_label_pad by lia. unfold period_compare.
    rewrite compare_app_eqlen by (rewrite !pad_length; reflexivity).
    rewrite pad_compare by (cbn -[Z.pow]; lia). destruct (y1 ?= y2); try reflexivity.
    rewrite compare_app_same, pad_compare by (cbn -[Z.pow]; lia).
    destruct (Z.compare_spec m1 m2), (Z.compare_spec (m1 + 1) (m2 + 1)); try reflexivity; lia.
  - intros y1 y2 Hy1 Hy2. unfold yearly_label.
    rewrite !dec_four_digits by lia. apply pad_compare; cbn -[Z.pow]; lia.
Qed.

End Labels.

Lemma reportRows_sorted_most_recent_first_witness :
  JsDate.MonthDate (JsDate.Day 0) = (1970, 0, 1) /\ JsDate.MonthDate (JsDate.Day 2678400000) = (1970, 1, 1) /\
  String.compare (Report.daily_label 0) (Report.daily_label 2678400000) = Lt /\
  String.compare (Report.monthly_label 2024 1) (Report.monthly_label 2024 0) = Gt /\
  String.compare (Report.yearly_label 2024) (Report.yearly_label 2023) = Gt.
Proof.
  destruct reportRows_sorted_most_recent_first as (_ & Hd & Hm & Hy).
  split; [vm_compute; reflexivity|]. split; [vm_compute; reflexivity|].
  split.
  { rewrite (Hd 0 2678400000 1970 0 1 1970 1 1);
      [reflexivity | vm_compute; reflexivity | vm_compute; reflexivity | lia | lia]. }
  split; [rewrite Hm by lia; reflexivity|]. rewrite Hy by lia. reflexivity.
Defined.

Section NextId.
Import JsDate OrderIds.

Lemma prefix_app_iff (p s : string) : String.prefix p s = true <-> exists w, s = (p ++ w)%string.
Proof.
  revert s. induction p as [|a p IH]; intros s.
  - split; [intros _; exists s; reflexivity | destruct s; reflexivity].
  - destruct s as [|b s]; cbn [String.prefix].
    + split; [discriminate | intros [w Hw]; discriminate].
    + destruct (Ascii.ascii_dec a b) as [->|Hne].
      * split.
        -- intros H. destruct (proj1 (IH s) H) as [w Hw]. exists w. rewrite Hw. reflexivity.
        -- intros [w Hw]. injection Hw as Hw. apply (proj2 (IH s)). eauto.
      * split; [discriminate | intros [w Hw]; injection Hw; intros; congruence].
Qed.

Lemma substring_full (w : string) : String.substring 0 (String.length w) w = w.
Proof. induction w as [|c w IH]; simpl; [reflexivity|]. rewrite IH. reflexivity. Qed.
























End NextId.

(** * Properties of the sign-in, staff, draft and view code *)

Section StringFacts.
Import OrderIds JsString.

Lemma append_cons c (s t : string) : (String c s ++ t)%string = String c (s ++ t).
Proof. reflexivity. Qed.

Lemma list_ascii_app (s t : string) :
  list_ascii_of_string (s ++ t) = list_ascii_of_string s ++ list_ascii_of_string t.
Proof. induction s as [|c s IH]; simpl; [reflexivity|]. rewrite IH. reflexivity. Qed.

Lemma keep_digits_digits s c : In c (list_ascii_of_string (keep_digits s)) -> is_digit c = true.
Proof.
  induction s as [|c' s IH]; simpl; [contradiction|].
  destruct (is_digit c') eqn:Hc; simpl; [|exact IH]. intros [<-|H]; auto.
Qed.

Lemma keep_digits_idem s : keep_digits (keep_digits s) = keep_digits s.
Proof.
  induction s as [|c s IH]; simpl; [reflexivity|].
  destruct (is_digit c) eqn:Hc; simpl; [rewrite Hc, IH|]; auto.
Qed.

Lemma substring_app_suffix (t w : string) :
  String.substring (String.length t) (String.length w) (t ++ w) = w.
Proof. induction t as [|c t IH]; simpl; [apply substring_full | exact IH]. Qed.

Lemma startsWith_slice (d t : string) : startsWith d t = true -> d = (t ++ slice d (String.length t))%string.
Proof.
  unfold startsWith, slice. intros [w ->]%prefix_app_iff. f_equal.
  rewrite string_length_app, Nat.add_comm, Nat.add_sub. symmetry. apply substring_app_suffix.
Qed.

Lemma substring_zero n s : String.substring n 0 s = EmptyString.
Proof. revert n. induction s as [|c s IH]; intros [|n]; simpl; auto. Qed.

Lemma endsWith_empty s : endsWith s EmptyString = true.
Proof. unfold endsWith. simpl. rewrite substring_zero. reflexivity. Qed.

Lemma keep_digits_app s t : keep_digits (s ++ t) = (keep_digits s ++ keep_digits t)%string.
Proof.
  induction s as [|c s IH]; simpl; [reflexivity|]. destruct (is_digit c); simpl; rewrite IH; reflexivity.
Qed.

Lemma keep_digits_trim_start s : keep_digits (trim_start s) = keep_digits s.
Proof.
  induction s as [|c s IH]; simpl; [reflexivity|].
  destruct (is_ws c) eqn:Hw; [|reflexivity]. rewrite IH.
  assert (Hd : is_digit c = false).
  { unfold is_ws in Hw. unfold is_digit.
    destruct (Nat.leb_spec 48 (Ascii.nat_of_ascii c)), (Nat.leb_spec (Ascii.nat_of_ascii c) 57);
      simpl; auto.
    repeat (apply orb_prop in Hw as [Hw|Hw]);
      [apply andb_prop in Hw as [H1 H2]; apply Nat.leb_le in H2 | apply Nat.eqb_eq in Hw ..]; lia. }
  rewrite Hd. reflexivity.
Qed.

Lemma keep_digits_rev_aux s acc :
  keep_digits (str_rev_aux s acc) = str_rev_aux (keep_digits s) (keep_digits acc).
Proof.
  revert acc. induction s as [|c s IH]; intros acc; simpl; [reflexivity|].
  rewrite IH. simpl. destruct (is_digit c); reflexivity.
Qed.

Lemma rev_aux_rev_aux s acc t : str_rev_aux (str_rev_aux s acc) t = str_rev_aux acc (s ++ t).
Proof. revert acc t. induction s as [|c s IH]; intros acc t; simpl; [reflexivity|]. rewrite IH. reflexivity. Qed.

Lemma append_empty s : (s ++ EmptyString)%string = s.
Proof. induction s as [|c s IH]; [reflexivity|]. rewrite append_cons, IH. reflexivity. Qed.

Lemma str_rev_involutive s : str_rev (str_rev s) = s.
Proof. unfold str_rev. rewrite rev_aux_rev_aux. cbn [str_rev_aux]. apply append_empty. Qed.

Lemma keep_digits_rev s : keep_digits (str_rev s) = str_rev (keep_digits s).
Proof. unfold str_rev. rewrite keep_digits_rev_aux. reflexivity. Qed.

Lemma keep_digits_trim s : keep_digits (trim s) = keep_digits s.
Proof.
  unfold trim. rewrite keep_digits_rev, keep_digits_trim_start, keep_digits_rev,
    str_rev_involutive. apply keep_digits_trim_start.
Qed.

End StringFacts.

Section PhoneLogin.
Import OrderIds JsString Auth.

(** X1: [normalizePhone] returns ASCII digits only: the digits of the
    phone with one of the prefixes "", "0", "252", "2520" or "25290"
    removed; the separators typed in the phone do not affect it. *)
Theorem normalizePhone_digit_suffix (p : string) :
  (exists pre, In pre [""; "0"; "252"; "2520"; "25290"]%string /\
               keep_digits p = (pre ++ normalizePhone p)%string) /\
  (forall c, In c (list_ascii_of_string (normalizePhone p)) -> is_digit c = true) /\
  normalizePhone (keep_digits p) = normalizePhone p.
Proof.
  assert (Hs : exists pre, In pre [""; "0"; "252"; "2520"; "25290"]%string /\
               keep_digits p = (pre ++ normalizePhone p)%string).
  { unfold normalizePhone.
    destruct (startsWith (keep_digits p) "25290") eqn:H1;
      [exists "25290"%string; split; [simpl; tauto | apply startsWith_slice; exact H1]|].
    destruct (startsWith (keep_digits p) "2520") eqn:H2;
      [exists "2520"%string; split; [simpl; tauto | apply startsWith_slice; exact H2]|].
    destruct (startsWith (keep_digits p) "252") eqn:H3;
      [exists "252"%string; split; [simpl; tauto | apply startsWith_slice; exact H3]|].
    destruct (startsWith (keep_digits p) "0") eqn:H4;
      [exists "0"%string; split; [simpl; tauto | apply startsWith_slice; exact H4]|].
    exists ""%string. split; [simpl; tauto | reflexivity]. }
  split; [exact Hs|]. split.
  - destruct Hs as (pre & _ & Hp). intros c Hc. apply (keep_digits_digits p).
    rewrite Hp, list_ascii_app. apply in_or_app. right. exact Hc.
  - unfold normalizePhone. rewrite keep_digits_idem. reflexivity.
Qed.

Lemma find_first {A} (f : A -> bool) (l : list A) (x : A) :
  find f l = Some x ->
  exists pre post, l = pre ++ x :: post /\ f x = true /\ Forall (fun y => f y = false) pre.
Proof.
  induction l as [|y l IH]; simpl; [discriminate|].
  destruct (f y) eqn:Hy.
  - intros [= ->]. exists [], l. auto.
  - intros H. destruct (IH H) as (pre & post & -> & Hx & Hpre).
    exists (y :: pre), post. auto.
Qed.

Lemma find_none_iff {A} (f : A -> bool) (l : list A) :
  find f l = None <-> Forall (fun y => f y = false) l.
Proof.
  induction l as [|y l IH]; simpl; [split; auto|].
  destruct (f y) eqn:Hy; split.
  - discriminate.
  - intros Hf. inversion Hf; congruence.
  - intros H. constructor; [exact Hy | apply IH, H].
  - intros Hf. inversion Hf. apply IH. assumption.
Qed.

Lemma find_first_of {A} (f : A -> bool) (l : list A) (pre post : list A) (x : A) :
  Forall (fun y => f y = false) pre -> f x = true -> find f (pre ++ x :: post) = Some x.
Proof. induction 1 as [|y pre Hy _ IH]; simpl; intros Hx; [rewrite Hx | rewrite Hy]; auto. Qed.

Lemma find_some_in {A} (f : A -> bool) (l : list A) :
  (exists y, In y l /\ f y = true) -> exists x, find f l = Some x.
Proof.
  intros (y & Hy & Hfy). destruct (find f l) as [z|] eqn:Hz; [eauto|].
  apply find_none_iff in Hz. rewrite List.Forall_forall in Hz. rewrite (Hz y Hy) in Hfy. discriminate.
Qed.

Lemma handleLogin_ok_inv (users : list User) (authPhone authPin : string) (now : Z)
    (m : User) (tab : Screen) (saved : Session) (dw : option string) :
  handleLogin users authPhone authPin now = LoginOk m tab saved dw ->
  let ok := login_match (trim authPin) (trim authPhone) (normalizePhone (trim authPhone)) in
  (exists pre post, users = pre ++ m :: post /\ Forall (fun u => ok u = false) pre) /\
  ok m = true /\ u_pin m = trim authPin /\ tab = landing (u_role m) /\
  saved = {| userId := u_id m; expiresAt := now + 3600000 |} /\
  dw = (if bool_decide (u_role m = Waiter) then Some (u_id m) else None).
Proof.
  intros H ok. revert H. unfold handleLogin. destruct users as [|u0 us]; [discriminate|].
  fold ok. destruct (find ok (u0 :: us)) as [m'|] eqn:Hf; [|discriminate].
  intros [= <- <- <- <-]. destruct (find_first _ _ _ Hf) as (pre & post & Hl & Hm & Hpre).
  split; [eauto|]. split; [exact Hm|]. split.
  { unfold ok, login_match in Hm. apply andb_prop in Hm as [Hm _]. apply String.eqb_eq, Hm. }
  auto.
Qed.

(** X2: [handleLogin] reports the loading error on an empty user list;
    a successful sign-in is the first user matching the trimmed PIN and
    phone, opens the tab of its role, saves a session for its id that
    expires one hour later, and makes a waiter the draft waiter; the
    invalid-credentials error comes exactly when no user matches. *)
Theorem handleLogin_first_match (users : list User) (authPhone authPin : string) (now : Z) :
  let ok := login_match (trim authPin) (trim authPhone) (normalizePhone (trim authPhone)) in
  (users = [] -> handleLogin users authPhone authPin now =
     LoginError "Data is still loading. Try again in a moment.") /\
  (forall m tab saved dw, handleLogin users authPhone authPin now = LoginOk m tab saved dw ->
     (exists pre post, users = pre ++ m :: post /\ Forall (fun u => ok u = false) pre) /\
     ok m = true /\ u_pin m = trim authPin /\ tab = landing (u_role m) /\
     saved = {| userId := u_id m; expiresAt := now + 3600000 |} /\
     (u_role m = Waiter -> dw = Some (u_id m)) /\ (u_role m <> Waiter -> dw = None)) /\
  (handleLogin users authPhone authPin now = LoginError "Invalid phone or PIN. Try again." <->
     users <> [] /\ Forall (fun u => ok u = false) users).
Proof.
  intros ok. split; [intros ->; reflexivity|]. split.
  - intros m tab saved dw Hl.
    destruct (handleLogin_ok_inv _ _ _ _ _ _ _ _ Hl) as (Hpre & Hm & Hp & Ht & Hs & Hd).
    do 5 (split; [assumption|]).
    split; intros Hr; rewrite Hd; [rewrite bool_decide_true | rewrite bool_decide_false]; auto.
  - unfold handleLogin. destruct users as [|u0 us]; [split; [discriminate | intros [H _]; congruence]|].
    fold ok. destruct (find ok (u0 :: us)) as [m'|] eqn:Hf; split.
    + discriminate.
    + intros [_ Hn]. apply find_none_iff in Hn. congruence.
    + intros _. split; [discriminate | apply find_none_iff, Hf].
    + reflexivity.
Qed.

(** X3: a phone with no ASCII digit (for example an empty one) matches
    every stored phone: whenever some user has the trimmed PIN,
    [handleLogin] signs in the first user of the list with that PIN. *)
Theorem handleLogin_digitless_phone (users : list User) (authPhone authPin : string) (now : Z) :
  keep_digits authPhone = EmptyString ->
  (exists u, In u users /\ u_pin u = trim authPin) ->
  exists pre m post tab saved dw,
    users = pre ++ m :: post /\ u_pin m = trim authPin /\
    Forall (fun u => u_pin u <> trim authPin) pre /\
    handleLogin users authPhone authPin now = LoginOk m tab saved dw.
Proof.
  intros Hd Hu.
  assert (Hn : normalizePhone (trim authPhone) = EmptyString).
  { unfold normalizePhone. rewrite keep_digits_trim, Hd. reflexivity. }
  assert (Hok : forall u, login_match (trim authPin) (trim authPhone) (normalizePhone (trim authPhone)) u
                          = String.eqb (u_pin u) (trim authPin)).
  { intros u. unfold login_match. rewrite Hn, endsWith_empty.
    destruct (String.eqb (u_pin u) (trim authPin)); simpl; [rewrite !orb_true_r|]; reflexivity. }
  destruct users as [|u0 us]; [destruct Hu as (u & [] & _)|].
  destruct (find_some_in (login_match (trim authPin) (trim authPhone) (normalizePhone (trim authPhone)))
              (u0 :: us)) as [m Hf].
  { destruct Hu as (u & Hin & Hp). exists u. split; [exact Hin|]. rewrite Hok, Hp. apply String.eqb_refl. }
  destruct (find_first _ _ _ Hf) as (pre & post & Hl & Hm & Hpre).
  rewrite Hok in Hm. apply String.eqb_eq in Hm.
  exists pre, m, post. do 3 eexists. split; [exact Hl|]. split; [exact Hm|]. split.
  - eapply Forall_impl; [exact Hpre|]. intros y Hy. cbv beta in Hy. rewrite Hok in Hy.
    intros He. rewrite He, String.eqb_refl in Hy. discriminate.
  - unfold handleLogin. rewrite Hf. reflexivity.
Qed.

(** X4: [handleLogin] accepts a phone whose normalized digits are a
    suffix of a user's normalized phone, when that user has the PIN. *)
Theorem handleLogin_accepts_suffix (users : list User) (authPhone authPin : string) (now : Z) (u : User) :
  In u users -> u_pin u = trim authPin ->
  endsWith (normalizePhone (u_phone u)) (normalizePhone (trim authPhone)) = true ->
  exists m tab saved dw, handleLogin users authPhone authPin now = LoginOk m tab saved dw /\
                         u_pin m = trim authPin.
Proof.
  intros Hin Hp He.
  destruct (find_some_in (login_match (trim authPin) (trim authPhone) (normalizePhone (trim authPhone)))
              users) as [m Hf].
  { exists u. split; [exact Hin|]. unfold login_match. rewrite Hp, String.eqb_refl, He.
    simpl. rewrite orb_true_r. reflexivity. }
  destruct users as [|u0 us]; [destruct Hin|].
  destruct (handleLogin_ok_inv (u0 :: us) authPhone authPin now m
              (landing (u_role m)) {| userId := u_id m; expiresAt := now + 60 * 60 * 1000 |}
              (if bool_decide (u_role m = Waiter) then Some (u_id m) else None))
     as (_ & _ & Hpin & _).
  { unfold handleLogin. rewrite Hf. reflexivity. }
  do 4 eexists. split; [unfold handleLogin; rewrite Hf; reflexivity | exact Hpin].
Qed.

End PhoneLogin.

Section SessionStaff.
Import OrderIds JsString Auth.

Lemma find_user_unique (users : list User) (m : User) :
  NoDup (map u_id users) -> In m users -> find_user users (u_id m) = Some m.
Proof.
  unfold find_user. induction users as [|u us IH]; simpl; [contradiction|].
  intros Hnd Hin. inversion Hnd as [|? ? Hnotin Hnd']; subst.
  destruct (String.eqb_spec (u_id u) (u_id m)) as [He|Hne].
  - destruct Hin as [->|Hin]; [reflexivity|].
    exfalso. apply Hnotin. rewrite He. apply list_elem_of_In, in_map, Hin.
  - destruct Hin as [->|Hin]; [congruence|]. apply IH; assumption.
Qed.

Lemma find_user_some (users : list User) (id : string) (t : User) :
  find_user users id = Some t -> In t users /\ u_id t = id.
Proof.
  unfold find_user. intros H. split; [eapply find_some, H|].
  apply find_some in H as [_ H]. apply String.eqb_eq, H.
Qed.

(** X5: the session saved by a successful [handleLogin] at time t0 is
    restored (on a non-empty user list) as the first user with its id
    until t0 + 3600000 and cleared after; with the same user list and
    unique ids it resumes the signed-in user on the same tab. *)
Theorem login_then_restore (users : list User) (authPhone authPin : string) (t0 : Z)
    (m : User) (tab : Screen) (saved : Session) (dw : option string) (users' : list User) (t1 : Z) :
  handleLogin users authPhone authPin t0 = LoginOk m tab saved dw -> users' <> [] ->
  restoreSession None users' (Saved saved) t1 =
    (if t0 + 3600000 <? t1 then Clear
     else match find_user users' (u_id m) with
          | Some f => Resume f (landing (u_role f))
          | None => Keep
          end) /\
  (users' = users -> NoDup (map u_id users) -> t1 <= t0 + 3600000 ->
   restoreSession None users' (Saved saved) t1 = Resume m tab).
Proof.
  intros Hl Hne.
  destruct (handleLogin_ok_inv _ _ _ _ _ _ _ _ Hl)
    as ((pre & post & Hu & _) & _ & _ & Htab & Hs & _).
  assert (Hr : restoreSession None users' (Saved saved) t1 =
    (if t0 + 3600000 <? t1 then Clear
     else match find_user users' (u_id m) with
          | Some f => Resume f (landing (u_role f))
          | None => Keep
          end)).
  { subst saved. unfold restoreSession. destruct users' as [|u0 us]; [congruence|]. reflexivity. }
  split; [exact Hr|]. intros -> Hnd Ht. rewrite Hr.
  destruct (Z.ltb_spec (t0 + 3600000) t1); [lia|].
  rewrite find_user_unique; [congruence | exact Hnd |].
  rewrite Hu. apply in_or_app. right. left. reflexivity.
Qed.

(** X6: restoring a session resumes only with no signed-in user, a
    parsable unexpired session and a listed user of its id, on the tab
    of that user's role; it clears the stored session exactly when
    there is no signed-in user, users are loaded and the text does not
    parse or the session has expired. *)
Theorem restoreSession_outcomes (currentUser : option User) (users : list User) (raw : Stored) (now : Z) :
  (forall u tab, restoreSession currentUser users raw now = Resume u tab ->
     currentUser = None /\ In u users /\ tab = landing (u_role u) /\
     exists p, raw = Saved p /\ now <= expiresAt p /\ u_id u = userId p) /\
  (restoreSession currentUser users raw now = Clear <->
     currentUser = None /\ users <> [] /\
     (raw = Unparsable \/ exists p, raw = Saved p /\ expiresAt p < now)).
Proof.
  unfold restoreSession. split.
  - intros u tab. destruct currentUser; [discriminate|].
    destruct raw as [|p|], users as [|u0 us]; try discriminate.
    destruct (Z.ltb_spec (expiresAt p) now); [discriminate|].
    fold (find_user (u0 :: us) (userId p)).
    destruct (find_user (u0 :: us) (userId p)) as [f|] eqn:Hf; [|discriminate].
    intros [= <- <-]. apply find_user_some in Hf as [Hin Hid].
    split; [reflexivity|]. split; [exact Hin|]. split; [reflexivity|]. exists p. auto.
  - destruct currentUser; [split; [discriminate | intros [H _]; discriminate]|].
    destruct raw as [|p|], users as [|u0 us].
    all: split; [intros H | intros (_ & Hne & Hr)].
    all: try discriminate; try congruence.
    all: try (destruct Hr as [H | (p' & H & _)]; discriminate).
    + destruct (Z.ltb_spec (expiresAt p) now).
      * split; [reflexivity|]. split; [discriminate|]. right. eauto.
      * destruct (find (fun u => String.eqb (u_id u) (userId p)) (u0 :: us)); discriminate.
    + destruct Hr as [H | (p' & [= <-] & Hp)]; [discriminate|].
      apply Z.ltb_lt in Hp. rewrite Hp. reflexivity.
    + split; [reflexivity|]. split; [discriminate|]. left. reflexivity.
Qed.

Lemma four_digits_spec (q : string) :
  four_digits q = true -> String.length q = 4%nat /\ forall c, In c (list_ascii_of_string q) -> is_digit c = true.
Proof.
  unfold four_digits. intros H. apply andb_prop in H as [Hl Hd].
  apply Nat.eqb_eq in Hl. apply String.eqb_eq in Hd. split; [exact Hl|].
  intros c Hc. apply (keep_digits_digits q). rewrite Hd. exact Hc.
Qed.

(** X7: [updateWaiterProfile] refuses to modify another admin; any
    update it issues goes to the target's node ([dbId], else the id),
    an admin target is updated only by itself, and an admin target or
    the signed-in user's own profile keeps its stored role. *)
Theorem updateWaiterProfile_role_guard (users : list User) (currentUser : option User)
    (id name phone : string) (role : Role) (pin : option string) :
  (forall t, find_user users id = Some t -> u_role t = Admin -> is_self currentUser id = false ->
     trim name <> EmptyString -> trim phone <> EmptyString ->
     updateWaiterProfile users currentUser id name phone role pin =
       Refused "Admins cannot modify another admin.") /\
  (forall path p, updateWaiterProfile users currentUser id name phone role pin = UpdateAt path p ->
     path = ("users/" ++ default id (find_user users id ≫= u_dbId))%string /\
     (forall t, find_user users id = Some t -> u_role t = Admin -> is_self currentUser id = true) /\
     (forall t, find_user users id = Some t -> u_role t = Admin \/ is_self currentUser id = true ->
        up_role p = u_role t) /\
     (find_user users id = None -> up_role p = role)).
Proof.
  unfold updateWaiterProfile. split.
  - intros t Ht Ha Hs Hn Hp. rewrite Ht, Hs. simpl. rewrite bool_decide_true by exact Ha.
    destruct (String.eqb_spec (trim name) ""); [congruence|].
    destruct (String.eqb_spec (trim phone) ""); [congruence|]. reflexivity.
  - intros path p.
    destruct (String.eqb (trim name) "" || String.eqb (trim phone) ""); [discriminate|].
    destruct (is_admin (find_user users id) && negb (is_self currentUser id)) eqn:Hg; [discriminate|].
    destruct (match pin with Some p => negb (String.eqb p "") && negb (four_digits (trim p))
                          | None => false end); [discriminate|].
    intros [= <- <-]. cbn [up_role]. split; [reflexivity|]. split; [|split].
    + intros t Ht Ha. rewrite Ht in Hg. simpl in Hg. rewrite bool_decide_true in Hg by exact Ha.
      destruct (is_self currentUser id); [reflexivity | discriminate].
    + intros t Ht [Ha|Hs]; rewrite Ht; simpl; [rewrite bool_decide_true by exact Ha | rewrite Hs, orb_true_r];
        reflexivity.
    + intros Ht. rewrite Ht. simpl. destruct (is_self currentUser id); reflexivity.
Qed.

(** X8: an update issued by [updateWaiterProfile] carries the trimmed,
    non-empty name and phone; a PIN it writes is four ASCII digits; a
    PIN given non-empty is written trimmed, and an absent or empty PIN
    writes none. *)
Theorem updateWaiterProfile_payload (users : list User) (currentUser : option User)
    (id name phone : string) (role : Role) (pin : option string) (path : string) (p : UserUpdate) :
  updateWaiterProfile users currentUser id name phone role pin = UpdateAt path p ->
  up_name p = trim name /\ up_name p <> EmptyString /\
  up_phone p = trim phone /\ up_phone p <> EmptyString /\
  (forall q, up_pin p = Some q ->
     String.length q = 4%nat /\ (forall c, In c (list_ascii_of_string q) -> is_digit c = true)) /\
  (forall p0, pin = Some p0 -> p0 <> EmptyString -> up_pin p = Some (trim p0)) /\
  (pin = None \/ pin = Some EmptyString -> up_pin p = None).
Proof.
  unfold updateWaiterProfile.
  destruct (String.eqb_spec (trim name) ""); [discriminate|].
  destruct (String.eqb_spec (trim phone) ""); [discriminate|]. simpl.
  destruct (is_admin (find_user users id) && negb (is_self currentUser id)); [discriminate|].
  destruct pin as [p1|].
  - destruct (String.eqb_spec p1 "") as [->|Hne]; simpl.
    + intros [= <- <-]. cbn. do 4 (split; [auto|]). split; [discriminate|]. split; [|auto].
      intros p0 [= <-]. congruence.
    + destruct (four_digits (trim p1)) eqn:Hf; simpl; [|discriminate].
      assert (Ht : String.eqb (trim p1) "" = false).
      { destruct (trim p1); [discriminate | reflexivity]. }
      rewrite Ht. intros [= <- <-]. cbn. do 4 (split; [auto|]). split; [|split].
      * intros q [= <-]. apply four_digits_spec, Hf.
      * intros p0 [= <-] _. reflexivity.
      * intros [H | H]; congruence.
  - simpl. intros [= <- <-]. cbn. do 4 (split; [auto|]). split; [discriminate|]. split; [|auto].
    intros p0 H. discriminate.
Qed.

(** X9: [deleteWaiter] never removes the signed-in user nor a listed
    admin: a removal is for an id that is not the signed-in user's, at
    users/<id> when no user has that id, else at the node of the first
    such user, which is not an admin. *)
Theorem deleteWaiter_guard (users : list User) (currentUser : option User) (id path : string) :
  deleteWaiter users currentUser id = RemoveAt path ->
  is_self currentUser id = false /\
  ((find_user users id = None /\ path = ("users/" ++ id)%string) \/
   (exists t, find_user users id = Some t /\ u_id t = id /\ u_role t <> Admin /\
              path = ("users/" ++ default id (u_dbId t))%string)).
Proof.
  unfold deleteWaiter.
  destruct (is_admin (find_user users id) && negb (is_self currentUser id)) eqn:Hg; [discriminate|].
  destruct (is_self currentUser id) eqn:Hs; [discriminate|]. intros [= <-]. split; [reflexivity|].
  destruct (find_user users id) as [t|] eqn:Ht; [right | left; auto].
  exists t. split; [reflexivity|]. split; [apply (find_user_some users id t Ht)|].
  split; [|reflexivity]. intros Ha. simpl in Hg. rewrite bool_decide_true in Hg by exact Ha.
  discriminate.
Qed.

End SessionStaff.

Section DraftFacts.
Import JsDate OrderIds Draft.

Lemma selected_in (d : gmap string Z) (i : string) (q : Z) :
  In {| itemId := i; qty := q |} (selected d) <-> d !! i = Some q /\ 0 < q.
Proof.
  unfold selected. rewrite in_map_iff. split.
  - intros ([k v] & [= <- <-] & Hin). apply filter_In in Hin as [Hin Hp].
    apply list_elem_of_In, elem_of_map_to_list in Hin. apply Z.ltb_lt in Hp. auto.
  - intros [Hd Hq]. exists (i, q). split; [reflexivity|]. apply filter_In. split.
    + apply list_elem_of_In, elem_of_map_to_list, Hd.
    + apply Z.ltb_lt, Hq.
Qed.

Lemma selected_nodup (d : gmap string Z) : NoDup (map itemId (selected d)).
Proof.
  unfold selected. rewrite map_map. cbn.
  assert (H : NoDup (map fst (map_to_list d))) by apply NoDup_fst_map_to_list.
  revert H. generalize (map_to_list d). induction l as [|[k v] l IH]; simpl; intros H; [constructor|].
  apply NoDup_cons in H as [Hk H]. destruct (0 <? v); simpl; [|auto].
  apply NoDup_cons. split; [|auto]. intros Hin. apply Hk.
  apply list_elem_of_In in Hin. apply list_elem_of_In. apply in_map_iff in Hin as ([k' v'] & <- & Hin).
  apply filter_In in Hin as [Hin _]. apply in_map_iff. exists (k', v'). auto.
Qed.

(** X10: [updateDraftQty] sets the item's quantity when positive and
    removes it otherwise, leaves the other items alone and keeps every
    quantity positive; so a draft built by any sequence of updates from
    the empty draft holds positive quantities only. *)
Theorem updateDraftQty_spec (i : string) (q : Z) (prev : gmap string Z) :
  updateDraftQty i q prev !! i = (if q <=? 0 then None else Some q) /\
  (forall j, j <> i -> updateDraftQty i q prev !! j = prev !! j) /\
  (map_Forall (fun _ v => 0 < v) prev -> map_Forall (fun _ v => 0 < v) (updateDraftQty i q prev)) /\
  (forall ops : list (string * Z),
     map_Forall (fun _ v => 0 < v) (fold_left (fun d op => updateDraftQty op.1 op.2 d) ops ∅)).
Proof.
  assert (Hinv : forall i q prev, map_Forall (fun _ v => 0 < v) prev ->
                   map_Forall (fun _ v => 0 < v) (updateDraftQty i q prev)).
  { intros i' q' d Hd. unfold updateDraftQty. destruct (Z.leb_spec q' 0).
    - apply map_Forall_delete, Hd.
    - apply map_Forall_insert_2; [lia | exact Hd]. }
  unfold updateDraftQty at 1 2. split; [|split; [|split]].
  - destruct (Z.leb_spec q 0); [apply lookup_delete_eq | apply lookup_insert_eq].
  - intros j Hj. destruct (Z.leb_spec q 0); [apply lookup_delete_ne | apply lookup_insert_ne]; congruence.
  - apply Hinv.
  - intros ops. assert (H0 : map_Forall (fun (_ : string) (v : Z) => 0 < v) (∅ : gmap string Z))
      by apply map_Forall_empty.
    revert H0. generalize (∅ : gmap string Z). induction ops as [|op ops IH]; simpl; intros d Hd;
      [exact Hd | apply IH, Hinv, Hd].
Qed.

Lemma selected_nil_iff (d : gmap string Z) :
  selected d = [] <-> map_Forall (fun _ v => v <= 0) d.
Proof.
  split.
  - intros Hs i v Hi. destruct (Z.leb_spec v 0); [lia|].
    assert (Hin : In {| itemId := i; qty := v |} (selected d)) by (apply selected_in; auto).
    rewrite Hs in Hin. destruct Hin.
  - intros Hd. destruct (selected d) as [|[i v] l] eqn:Hs; [reflexivity|].
    assert (Hin : In {| itemId := i; qty := v |} (selected d)) by (rewrite Hs; left; reflexivity).
    apply selected_in in Hin as [Hi Hv]. specialize (Hd i v Hi). simpl in Hd. lia.
Qed.

(** X11: [handleCreateOrder] leaves the loan ledger alone; without a
    waiter or a positive quantity, or when the write fails, the store
    and the draft are unchanged; on success only the orders node at the
    push key changes, holding a pending order with the next id, the
    waiter, the time, an empty collector and one line per item of
    positive quantity, and the draft is cleared. *)
Theorem handleCreateOrder_spec (draftWaiter : string) (draftQty : gmap string Z) (orders : list Order)
    (k : string) (now : Z) (ok : bool) (s s' : Store) (d' : gmap string Z) (b : Banner) :
  handleCreateOrder draftWaiter draftQty orders k now ok s = (s', d', b) ->
  customers_db s' = customers_db s /\
  (draftWaiter = EmptyString ->
     s' = s /\ d' = draftQty /\ b = BError "Pick a waiter to assign the order.") /\
  (draftWaiter <> EmptyString -> map_Forall (fun _ v => v <= 0) draftQty ->
     s' = s /\ d' = draftQty /\ b = BError "Add at least one item before submitting.") /\
  (draftWaiter <> EmptyString -> ok = false -> s' = s /\ d' = draftQty) /\
  (draftWaiter <> EmptyString -> ok = true -> (exists i v, draftQty !! i = Some v /\ 0 < v) ->
     d' = ∅ /\ b = BSuccess "Order captured and stock updated." /\
     (forall j, j <> k -> orders_db s' !! j = orders_db s !! j) /\
     exists n, orders_db s' !! k = Some n /\
       load_order k n = {| oid := nextOrderId (map oid orders); waiterId := draftWaiter;
                           time := toISOString now; items := selected draftQty;
                           status := Pending; collector := EmptyString |} /\
       (forall i v, In {| itemId := i; qty := v |} (n_items n) <-> draftQty !! i = Some v /\ 0 < v) /\
       NoDup (map itemId (n_items n))).
Proof.
  unfold handleCreateOrder. intros H.
  destruct (String.eqb_spec draftWaiter "") as [Hw|Hw].
  { injection H as <- <- <-. split; [reflexivity|]. split; [auto|].
    split; [intros; congruence|]. split; [auto | intros; congruence]. }
  destruct (Nat.eqb_spec (length (selected draftQty)) 0) as [Hl|Hl].
  { injection H as <- <- <-. apply nil_length_inv in Hl.
    split; [reflexivity|]. split; [congruence|]. split; [auto|]. split; [auto|].
    intros _ _ (i & v & Hi & Hv). apply selected_nil_iff in Hl. specialize (Hl i v Hi). simpl in Hl. lia. }
  destruct ok.
  - injection H as <- <- <-. split; [reflexivity|]. split; [congruence|].
    split; [intros _ Hd; apply selected_nil_iff in Hd; rewrite Hd in Hl; simpl in Hl; congruence|].
    split; [discriminate|]. intros _ _ _. split; [reflexivity|]. split; [reflexivity|]. split.
    + intros j Hj. cbn. apply lookup_insert_ne. congruence.
    + eexists. cbn. split; [apply lookup_insert_eq|]. split; [reflexivity|]. cbn. split.
      * apply selected_in.
      * apply selected_nodup.
  - injection H as <- <- <-. split; [reflexivity|]. split; [congruence|].
    split; [intros _ Hd; apply selected_nil_iff in Hd; rewrite Hd in Hl; simpl in Hl; congruence|].
    split; [auto | discriminate].
Qed.

End DraftFacts.

Section SortFacts.
Import JsSort.
Context {A : Type}.

Lemma insert_cmp_perm (cmp : A -> A -> Z) x l : insert_cmp cmp x l ≡ₚ x :: l.
Proof.
  induction l as [|y l IH]; simpl; [reflexivity|].
  destruct (cmp x y <=? 0); [reflexivity|]. rewrite IH. apply perm_swap.
Qed.

Lemma sort_cmp_perm (cmp : A -> A -> Z) l : sort_cmp cmp l ≡ₚ l.
Proof.
  unfold sort_cmp. induction l as [|x l IH]; simpl; [reflexivity|].
  rewrite insert_cmp_perm, IH. reflexivity.
Qed.

Lemma insert_cmp_sorted (cmp : A -> A -> Z) (Hanti : forall x y, 0 < cmp x y -> cmp y x <= 0) x l :
  Sorted (fun a b => cmp a b <= 0) l -> Sorted (fun a b => cmp a b <= 0) (insert_cmp cmp x l).
Proof.
  induction l as [|y l IH]; simpl; intros Hs; [repeat constructor|].
  destruct (Z.leb_spec (cmp x y) 0) as [Hle|Hgt].
  - constructor; [exact Hs | constructor; exact Hle].
  - inversion Hs as [|? ? Hl Hh]; subst. constructor; [apply IH, Hl|].
    destruct l as [|z l]; simpl; [constructor; apply Hanti; exact Hgt|].
    destruct (cmp x z <=? 0); constructor; [apply Hanti; exact Hgt|]. inversion Hh; assumption.
Qed.

Lemma sort_cmp_sorted (cmp : A -> A -> Z) (Hanti : forall x y, 0 < cmp x y -> cmp y x <= 0) l :
  Sorted (fun a b => cmp a b <= 0) (sort_cmp cmp l).
Proof.
  unfold sort_cmp. induction l as [|x l IH]; simpl; [constructor|]. apply insert_cmp_sorted; assumption.
Qed.

Lemma sorted_strongly_on (R : A -> A -> Prop) (P : A -> Prop)
    (Htr : forall x y z, P x -> P y -> P z -> R x y -> R y z -> R x z) l :
  Forall P l -> Sorted R l -> StronglySorted R l.
Proof.
  induction l as [|a l IH]; intros Hp Hs; [constructor|].
  inversion Hp as [|? ? Pa Pl]; inversion Hs as [|? ? Sl Ha]; subst.
  constructor; [apply IH; assumption|].
  clear IH Hs Hp. revert a Pa Ha. induction l as [|b l IHl]; intros a Pa Ha; [constructor|].
  inversion Pl as [|? ? Pb Pl']; inversion Sl as [|? ? Sl' Hb]; subst. inversion Ha; subst.
  constructor; [assumption|].
  assert (Hbl : Forall (R b) l) by (apply IHl; assumption).
  apply List.Forall_forall. intros z Hz. rewrite List.Forall_forall in Hbl, Pl'.
  apply (Htr a b z); auto.
Qed.

Lemma strongly_sorted_weaken (R R' : A -> A -> Prop) (P : A -> Prop)
    (Himp : forall x y, P x -> P y -> R x y -> R' x y) l :
  Forall P l -> StronglySorted R l -> StronglySorted R' l.
Proof.
  induction 2 as [|a l Hs IH Ha]; [constructor|]. inversion H; subst.
  constructor; [auto|]. rewrite List.Forall_forall in *. auto.
Qed.

End SortFacts.

Lemma sorted_weaken {A} (R R' : A -> A -> Prop) (Himp : forall x y, R x y -> R' x y) l :
  Sorted R l -> Sorted R' l.
Proof.
  induction 1 as [|a l Hs IH Hh]; constructor; [exact IH|].
  destruct Hh; constructor. apply Himp. assumption.
Qed.

Section OrderSort.
Import JsSort Views.
Variable parseTime : string -> option Z.

Lemma cmp_orders_anti x y : 0 < cmp_orders parseTime x y -> cmp_orders parseTime y x <= 0.
Proof.
  unfold cmp_orders, time_desc.
  destruct (Z.eqb_spec (orderPriority x) (orderPriority y)), (Z.eqb_spec (orderPriority y) (orderPriority x));
    simpl; try lia.
  destruct (parseTime (time x)), (parseTime (time y)); lia.
Qed.

Lemma cmp_orders_prio a b : cmp_orders parseTime a b <= 0 -> orderPriority b <= orderPriority a.
Proof. unfold cmp_orders. destruct (Z.eqb_spec (orderPriority a) (orderPriority b)); simpl; lia. Qed.

Lemma cmp_orders_timed a b ta tb : parseTime (time a) = Some ta -> parseTime (time b) = Some tb ->
  (cmp_orders parseTime a b <= 0 <->
   orderPriority b < orderPriority a \/ (orderPriority a = orderPriority b /\ tb <= ta)).
Proof.
  intros Ha Hb. unfold cmp_orders, time_desc. rewrite Ha, Hb.
  destruct (Z.eqb_spec (orderPriority a) (orderPriority b)); simpl; lia.
Qed.

Lemma sort_orders_spec (l : list Order) :
  sort_cmp (cmp_orders parseTime) l ≡ₚ l /\
  StronglySorted (fun a b => orderPriority b <= orderPriority a) (sort_cmp (cmp_orders parseTime) l) /\
  ((forall o, In o l -> exists t, parseTime (time o) = Some t) ->
   StronglySorted (fun a b => orderPriority a = orderPriority b ->
                     forall ta tb, parseTime (time a) = Some ta -> parseTime (time b) = Some tb -> tb <= ta)
                  (sort_cmp (cmp_orders parseTime) l)).
Proof.
  pose proof (sort_cmp_sorted (cmp_orders parseTime) cmp_orders_anti l) as Hs.
  split; [apply sort_cmp_perm|]. split.
  - apply (sorted_strongly_on _ (fun _ => True)); [intros; lia | apply List.Forall_forall; auto |].
    eapply sorted_weaken; [|exact Hs]. apply cmp_orders_prio.
  - intros Ht.
    assert (Hp : Forall (fun o => exists t, parseTime (time o) = Some t) (sort_cmp (cmp_orders parseTime) l)).
    { apply List.Forall_forall. intros o Ho. apply Ht.
      apply (Permutation_in _ (sort_cmp_perm (cmp_orders parseTime) l)), Ho. }
    apply (strongly_sorted_weaken (fun a b => cmp_orders parseTime a b <= 0) _
             (fun o => exists t, parseTime (time o) = Some t)); [| exact Hp |].
    + intros x y (tx & Hx) (ty & Hy) Hr Hpr ta tb Ha Hb.
      rewrite Hx in Ha; rewrite Hy in Hb. injection Ha as <-. injection Hb as <-.
      apply (cmp_orders_timed x y tx ty Hx Hy) in Hr. lia.
    + apply (sorted_strongly_on _ (fun o => exists t, parseTime (time o) = Some t)); [|exact Hp|exact Hs].
      intros x y z (tx & Hx) (ty & Hy) (tz & Hz) Hxy Hyz.
      rewrite (cmp_orders_timed x y tx ty Hx Hy) in Hxy. rewrite (cmp_orders_timed y z ty tz Hy Hz) in Hyz.
      rewrite (cmp_orders_timed x z tx tz Hx Hz). lia.
Qed.

End OrderSort.

Section ViewFacts.
Import OrderIds JsString JsSort Auth Views.

Lemma append_assoc_s (s t u : string) : ((s ++ t) ++ u)%string = (s ++ (t ++ u))%string.
Proof. induction s as [|c s IH]; [reflexivity|]. rewrite !append_cons, IH. reflexivity. Qed.

Lemma includes_empty (s : string) : includes s EmptyString = true.
Proof. destruct s; reflexivity. Qed.

Lemma includes_app_l (s u t : string) : includes s t = true -> includes (s ++ u) t = true.
Proof.
  induction s as [|c s IH]; intros H.
  - simpl in H. destruct t; [apply includes_empty | discriminate].
  - change (String.prefix t (String c s) || includes s t = true) in H.
    change (String.prefix t (String c (s ++ u)) || includes (s ++ u) t = true).
    apply orb_prop in H as [H|H].
    + apply prefix_app_iff in H as [w Hw]. apply orb_true_intro. left. apply prefix_app_iff.
      exists (w ++ u)%string. rewrite <- append_assoc_s, <- Hw. reflexivity.
    + rewrite IH by exact H. apply orb_true_r.
Qed.

Lemma includes_app_r (s u t : string) : includes u t = true -> includes (s ++ u) t = true.
Proof.
  induction s as [|c s IH]; intros H; [exact H|].
  change (String.prefix t (String c (s ++ u)) || includes (s ++ u) t = true).
  rewrite IH by exact H. apply orb_true_r.
Qed.

Lemma toLowerCase_app (s t : string) : toLowerCase (s ++ t) = (toLowerCase s ++ toLowerCase t)%string.
Proof. induction s as [|c s IH]; [reflexivity|]. simpl. rewrite IH. reflexivity. Qed.

Lemma filter_all_true {A} (f : A -> bool) (l : list A) : (forall x, In x l -> f x = true) -> List.filter f l = l.
Proof. induction l as [|x l IH]; simpl; intros H; [reflexivity|]. rewrite H by auto. f_equal. auto. Qed.

Lemma filter_sublist_l {A} (f : A -> bool) (l : list A) : sublist (List.filter f l) l.
Proof.
  induction l as [|x l IH]; simpl; [constructor|].
  destruct (f x); [apply sublist_skip | apply sublist_cons]; exact IH.
Qed.

(** X13: [ordersFiltered] keeps orders in their order, only those of
    the selected waiter; with "all" and a blank search it keeps every
    order, and it keeps each order of the selected waiter whose id or
    waiter name contains the trimmed search, letter case aside. *)
Theorem ordersFiltered_spec (users : list User) (orderWaiterFilter search : string) (orders : list Order) :
  let shown := ordersFiltered users orderWaiterFilter search orders in
  let q := toLowerCase (trim search) in
  sublist shown orders /\
  (orderWaiterFilter <> "all"%string -> forall o, In o shown -> waiterId o = orderWaiterFilter) /\
  (orderWaiterFilter = "all"%string -> trim search = EmptyString -> shown = orders) /\
  (forall o, In o orders -> (orderWaiterFilter = "all"%string \/ waiterId o = orderWaiterFilter) ->
     (includes (toLowerCase (oid o)) q = true \/
      exists w, usersById users !! waiterId o = Some w /\ includes (toLowerCase (u_name w)) q = true) ->
     In o shown).
Proof.
  intros shown q. unfold shown, ordersFiltered.
  split; [|split; [|split]].
  - apply filter_sublist_l.
  - intros Hne o Hin. apply filter_In in Hin as [_ H].
    destruct (String.eqb_spec orderWaiterFilter "all"); [congruence|].
    destruct (String.eqb_spec (waiterId o) orderWaiterFilter); [assumption | discriminate].
  - intros -> Ht. apply filter_all_true. intros o _. rewrite Ht. simpl. apply includes_empty.
  - intros o Hin Hw Hq. apply filter_In. split; [exact Hin|].
    assert (Hg : negb (String.eqb orderWaiterFilter "all") && negb (String.eqb (waiterId o) orderWaiterFilter)
                 = false).
    { destruct Hw as [ -> | -> ]; [reflexivity | rewrite String.eqb_refl; apply andb_false_r]. }
    rewrite Hg. rewrite !toLowerCase_app. fold q. destruct Hq as [Hq | (w & Hl & Hq)].
    + apply includes_app_l, Hq.
    + rewrite Hl. cbn [default fmap option_fmap option_map]. apply includes_app_r, includes_app_r, Hq.
Qed.

(** X12: [orderListSorted] is a reordering of the filtered list with
    pending orders first, then loans, then paid; when every time
    parses, orders of equal priority come newest first. *)
Theorem orderListSorted_spec (users : list User) (parseTime : string -> option Z) (f : OrderFilter)
    (orderWaiterFilter search : string) (orders : list Order) :
  let l := orderList f (ordersFiltered users orderWaiterFilter search orders) in
  let r := orderListSorted users parseTime f orderWaiterFilter search orders in
  r ≡ₚ l /\
  StronglySorted (fun a b => orderPriority b <= orderPriority a) r /\
  ((forall o, In o l -> exists t, parseTime (time o) = Some t) ->
   StronglySorted (fun a b => orderPriority a = orderPriority b ->
                     forall ta tb, parseTime (time a) = Some ta -> parseTime (time b) = Some tb -> tb <= ta) r).
Proof. intros l r. apply sort_orders_spec. Qed.

Lemma time_desc_anti (parseTime : string -> option Z) x y :
  0 < time_desc parseTime x y -> time_desc parseTime y x <= 0.
Proof. unfold time_desc. destruct (parseTime (time x)), (parseTime (time y)); lia. Qed.

(** X16: the orders listener keeps every order of the snapshot, and
    when every time parses it lists them newest first. *)
Theorem loadOrders_spec (parseTime : string -> option Z) (snapshot : list (string * OrderNode)) :
  loadOrders parseTime snapshot ≡ₚ map (fun kv => load_order kv.1 kv.2) snapshot /\
  ((forall kv, In kv snapshot -> exists t, parseTime (time (load_order kv.1 kv.2)) = Some t) ->
   StronglySorted (fun a b => forall ta tb, parseTime (time a) = Some ta -> parseTime (time b) = Some tb -> tb <= ta)
                  (loadOrders parseTime snapshot)).
Proof.
  unfold loadOrders. set (l := map (fun kv => load_order kv.1 kv.2) snapshot).
  split; [apply sort_cmp_perm|]. intros Ht.
  set (P := fun o : Order => exists t, parseTime (time o) = Some t).
  assert (Hp : Forall P (sort_cmp (time_desc parseTime) l)).
  { apply List.Forall_forall. intros o Ho. apply (Permutation_in _ (sort_cmp_perm (time_desc parseTime) l)) in Ho.
    unfold l in Ho. apply in_map_iff in Ho as (kv & <- & Hkv). apply Ht, Hkv. }
  assert (Hr : forall a b ta tb, parseTime (time a) = Some ta -> parseTime (time b) = Some tb ->
                 (time_desc parseTime a b <= 0 <-> tb <= ta)).
  { intros a b ta tb Ha Hb. unfold time_desc. rewrite Ha, Hb. lia. }
  apply (strongly_sorted_weaken (fun a b => time_desc parseTime a b <= 0) _ P); [| exact Hp |].
  - intros x y (tx & Hx) (ty & Hy) Hxy ta tb Ha Hb. rewrite Hx in Ha; rewrite Hy in Hb.
    injection Ha as <-; injection Hb as <-. apply (Hr x y tx ty Hx Hy), Hxy.
  - apply (sorted_strongly_on _ P); [| exact Hp | apply sort_cmp_sorted, time_desc_anti].
    intros x y z (tx & Hx) (ty & Hy) (tz & Hz) Hxy Hyz.
    apply (Hr x y tx ty Hx Hy) in Hxy. apply (Hr y z ty tz Hy Hz) in Hyz. apply (Hr x z tx tz Hx Hz). lia.
Qed.

Lemma filter_length_split {A} (f : A -> bool) (l : list A) :
  (length (List.filter f l) + length (List.filter (fun x => negb (f x)) l))%nat = length l.
Proof. induction l as [|x l IH]; simpl; [reflexivity|]. destruct (f x); simpl; lia. Qed.

Lemma not_loan_count (l : list Order) :
  length (List.filter (fun o => negb (bool_decide (status o = Loan))) l) =
  (length (List.filter (fun o => bool_decide (status o = Paid)) l) +
   length (List.filter (fun o => bool_decide (status o = Pending)) l))%nat.
Proof.
  induction l as [|o l IH]; simpl; [reflexivity|].
  destruct (status o); simpl; rewrite IH; lia.
Qed.

Lemma filter_filter_and {A} (f g : A -> bool) (l : list A) :
  List.filter g (List.filter f l) = List.filter (fun x => f x && g x) l.
Proof. induction l as [|x l IH]; simpl; [reflexivity|]. destruct (f x); simpl; rewrite ?IH; reflexivity. Qed.

(** X14: each chart of [waiterCharts] is for a listed waiter, counts
    its orders, splits them into paid and loan bars that add up to the
    count, and counts pending orders in the paid bar. *)
Theorem waiterCharts_spec (users : list User) (orders : list Order) (c : WaiterChart) :
  In c (waiterCharts users orders) ->
  In (wc_waiter c) users /\ u_role (wc_waiter c) = Waiter /\
  wc_orders c = length (List.filter (fun o => String.eqb (waiterId o) (u_id (wc_waiter c))) orders) /\
  (wc_paid c + wc_loan c)%nat = wc_orders c /\
  wc_paid c = (length (List.filter (fun o => String.eqb (waiterId o) (u_id (wc_waiter c)) &&
                                             bool_decide (status o = Paid)) orders) +
               length (List.filter (fun o => String.eqb (waiterId o) (u_id (wc_waiter c)) &&
                                             bool_decide (status o = Pending)) orders))%nat.
Proof.
  unfold waiterCharts. intros Hc. apply in_map_iff in Hc as (w & <- & Hw).
  apply filter_In in Hw as [Hw Hr]. apply bool_decide_eq_true in Hr. cbn.
  split; [exact Hw|]. split; [exact Hr|]. split; [reflexivity|]. split.
  - rewrite Nat.add_comm. apply filter_length_split.
  - rewrite not_loan_count, !filter_filter_and. reflexivity.
Qed.










End ViewFacts.


Section TrFacts.
Import I18n.

Lemma assoc_some_in (k : string) (l : list (string * string)) :
  is_Some (assoc k l) <-> In k (map fst l).
Proof.
  induction l as [|[k' v] l IH]; simpl; [split; [intros [? H]; discriminate | contradiction]|].
  destruct (String.eqb_spec k k') as [->|Hne]; [split; [auto | intros _; eexists; reflexivity]|].
  rewrite IH. split; [auto|]. intros [->|H]; [congruence | exact H].
Qed.

Lemma translation_keys : map fst TRANSLATIONS_en = map fst TRANSLATIONS_so.
Proof. vm_compute. reflexivity. Qed.

Lemma prototype_names_untranslated :
  forallb (fun n => match assoc n TRANSLATIONS_en, assoc n TRANSLATIONS_so with
                    | None, None => true | _, _ => false end) object_prototype_names = true.
Proof. vm_compute. reflexivity. Qed.

(** X17: the English and Somali translation tables have the same keys;
    [tr] gives a string for every key except the names inherited from
    [Object.prototype], for which it gives the inherited member, and a
    key missing from the table for another name is shown as is. *)
Theorem tr_spec :
  (forall k, is_Some (assoc k TRANSLATIONS_en) <-> is_Some (assoc k TRANSLATIONS_so)) /\
  (forall lang k, tr lang k = JInherited k <-> In k object_prototype_names) /\
  (forall lang k, ~ In k object_prototype_names -> exists s, tr lang k = JStr s) /\
  (forall lang k, assoc k (table lang) = None -> ~ In k object_prototype_names -> tr lang k = JStr k).
Proof.
  assert (Hn : forall lang k, In k object_prototype_names -> assoc k (table lang) = None).
  { intros lang k Hk. pose proof prototype_names_untranslated as H. rewrite forallb_forall in H.
    specialize (H k Hk). cbv beta in H.
    destruct (assoc k TRANSLATIONS_en) eqn:E1; [discriminate H|].
    destruct (assoc k TRANSLATIONS_so) eqn:E2; [discriminate H|].
    destruct lang; [exact E1 | exact E2]. }
  assert (He : forall k, existsb (String.eqb k) object_prototype_names = true <-> In k object_prototype_names).
  { intros k. rewrite existsb_exists. split.
    - intros (x & Hx & Hk). apply String.eqb_eq in Hk. subst. exact Hx.
    - intros Hk. exists k. split; [exact Hk | apply String.eqb_refl]. }
  split; [intros k; rewrite !assoc_some_in, translation_keys; reflexivity|].
  split; [|split].
  - intros lang k. unfold tr. split.
    + destruct (assoc k (table lang)) as [v|]; [intros Hc; discriminate Hc|].
      destruct (existsb (String.eqb k) object_prototype_names) eqn:Hx;
        [intros _; apply He; exact Hx | intros Hc; discriminate Hc].
    + intros Hk. rewrite (Hn lang k Hk). apply He in Hk. rewrite Hk. reflexivity.
  - intros lang k Hk. unfold tr. destruct (assoc k (table lang)) as [v|]; [exists v; reflexivity|].
    destruct (existsb (String.eqb k) object_prototype_names) eqn:Hx;
      [apply He in Hx; contradiction | exists k; reflexivity].
  - intros lang k Ha Hk. unfold tr. rewrite Ha.
    destruct (existsb (String.eqb k) object_prototype_names) eqn:Hx; [apply He in Hx; contradiction | reflexivity].
Qed.

End TrFacts.

Section ReportConservation.
Import Report.

Variable iB : gmap string Item.
Variable parseTime : string -> option Z.
Variable tz : Z.











End ReportConservation.

Section ReportTotals.
Import Report.


End ReportTotals.

(** ** Concrete runs of the properties above *)

Section Witnesses.
Import OrderIds JsString Auth StaffSample.

Lemma handleLogin_digitless_phone_witness :
  keep_digits " - " = EmptyString /\
  exists pre m post tab saved dw,
    staff = pre ++ m :: post /\ u_pin m = trim "1234" /\
    Forall (fun u => u_pin u <> trim "1234") pre /\
    handleLogin staff " - " "1234" 0 = LoginOk m tab saved dw.
Proof.
  split; [reflexivity|]. apply (handleLogin_digitless_phone staff " - " "1234" 0); [reflexivity|].
  exists waiter. split; [right; left; reflexivity | reflexivity].
Defined.

Lemma handleLogin_accepts_suffix_witness :
  In waiter staff /\ u_pin waiter = trim "1234" /\
  endsWith (normalizePhone (u_phone waiter)) (normalizePhone (trim "45678")) = true /\
  exists m tab saved dw, handleLogin staff "45678" "1234" 0 = LoginOk m tab saved dw /\ u_pin m = trim "1234".
Proof.
  split; [right; left; reflexivity|]. split; [reflexivity|]. split; [vm_compute; reflexivity|].
  apply (handleLogin_accepts_suffix staff "45678" "1234" 0 waiter);
    [right; left; reflexivity | reflexivity | vm_compute; reflexivity].
Defined.

Lemma login_then_restore_witness :
  handleLogin staff "0612345678" "1234" 0 =
    LoginOk waiter OrdersTab {| userId := "w1"; expiresAt := 3600000 |} (Some "w1"%string) /\
  restoreSession None staff (Saved {| userId := "w1"; expiresAt := 3600000 |}) 100 = Resume waiter OrdersTab.
Proof.
  assert (Hl : handleLogin staff "0612345678" "1234" 0 =
    LoginOk waiter OrdersTab {| userId := "w1"; expiresAt := 3600000 |} (Some "w1"%string))
    by (vm_compute; reflexivity).
  split; [exact Hl|].
  apply (proj2 (login_then_restore staff "0612345678" "1234" 0 waiter OrdersTab
            {| userId := "w1"; expiresAt := 3600000 |} (Some "w1"%string) staff 100 Hl ltac:(discriminate)));
    [reflexivity | vm_compute; repeat constructor; set_solver | lia].
Defined.

Lemma updateWaiterProfile_payload_witness :
  updateWaiterProfile staff (Some admin) "w1" " Amina " "0612345678" Waiter (Some " 4321 ") =
    UpdateAt "users/-W1" {| up_name := "Amina"; up_phone := "0612345678"; up_role := Waiter;
                            up_pin := Some "4321"%string |} /\
  String.length "4321" = 4%nat.
Proof.
  assert (H : updateWaiterProfile staff (Some admin) "w1" " Amina " "0612345678" Waiter (Some " 4321 ") =
    UpdateAt "users/-W1" {| up_name := "Amina"; up_phone := "0612345678"; up_role := Waiter;
                            up_pin := Some "4321"%string |}) by (vm_compute; reflexivity).
  split; [exact H|].
  apply (proj1 (proj2 (proj2 (proj2 (proj2 (updateWaiterProfile_payload staff (Some admin) "w1" " Amina "
           "0612345678" Waiter (Some " 4321 ") _ _ H))))) "4321"%string eq_refl).
Defined.

Lemma deleteWaiter_guard_witness :
  deleteWaiter staff (Some admin) "w1" = RemoveAt "users/-W1" /\ is_self (Some admin) "w1" = false.
Proof.
  assert (H : deleteWaiter staff (Some admin) "w1" = RemoveAt "users/-W1") by (vm_compute; reflexivity).
  split; [exact H | apply (proj1 (deleteWaiter_guard staff (Some admin) "w1" "users/-W1" H))].
Defined.

End Witnesses.

Section DraftWitness.
Import JsDate OrderIds Draft.

Lemma handleCreateOrder_spec_witness :
  exists s' d' b,
    handleCreateOrder "w1" (<["i1" := 2]> ∅) [] "-Nx1" 0 true Sample.store_fresh = (s', d', b) /\
    d' = ∅ /\ customers_db s' = customers_db Sample.store_fresh.
Proof.
  destruct (handleCreateOrder "w1" (<["i1" := 2]> ∅) [] "-Nx1" 0 true Sample.store_fresh)
    as [[s' d'] b] eqn:Hr.
  exists s', d', b. split; [reflexivity|].
  destruct (handleCreateOrder_spec "w1" (<["i1" := 2]> ∅) [] "-Nx1" 0 true Sample.store_fresh s' d' b Hr)
    as (Hc & _ & _ & _ & Hok).
  split; [|exact Hc].
  apply (Hok ltac:(discriminate) eq_refl). exists "i1"%string, 2. split; [reflexivity | lia].
Defined.

End DraftWitness.

Section ViewWitness.
Import Auth Views StaffSample.

Lemma waiterCharts_spec_witness :
  In {| wc_waiter := waiter; wc_orders := 1; wc_loan := 0; wc_paid := 1 |}
     (waiterCharts staff [Sample.order1]) /\
  In waiter staff.
Proof.
  assert (H : In {| wc_waiter := waiter; wc_orders := 1; wc_loan := 0; wc_paid := 1 |}
                 (waiterCharts staff [Sample.order1])) by (vm_compute; left; reflexivity).
  split; [exact H | apply (proj1 (waiterCharts_spec staff [Sample.order1] _ H))].
Defined.

End ViewWitness.
